(** * todo.py and cal.py: the task store, its menu, and the password questions

    A shallow embedding of [src/todo.py] (the task entity, the task
    store with its JSON persistence, and the menu that drives it) and
    of the parts of [src/cal.py] that draw no random numbers.  Python
    objects become records, the mutable store and the outside world
    (files, clock, terminal) are threaded through small
    state-and-exception monads, and Python's exceptions are values of
    [exn] and [console_exn]. *)

From Stdlib Require Import ZArith String Ascii List.
From stdpp Require Import base option list strings gmap pretty sorting.

Open Scope string_scope.
Open Scope Z_scope.

(** ** Values of the JSON data model

    What [json.load] returns and [json.dump] accepts.  Numbers are the
    integers; floating-point numbers are left out of the model. *)

#[local] Set Warnings "-register-all".
Inductive json : Type :=
| JNull
| JBool (b : bool)
| JInt (n : Z)
| JStr (s : string)
| JList (items : list json)
| JObj (fields : list (string * json)).

(** ** Exceptions and results *)

Inductive exn : Type :=
| IndexError
| OverflowError
| KeyError (key : json)
| TypeError
| IOError (msg : string)
| JSONDecodeError (msg : string).

(** [Dynamic] marks a run that leaves the typed fragment: a record field
    read from the file holds a value of another type than the annotation
    of the attribute it is assigned to.  Python keeps such a value; the
    embedding, whose [Task] follows the annotations, stops there and
    says nothing about the rest of the run. *)
Inductive res (A : Type) : Type :=
| Val (a : A)
| Raise (e : exn)
| Dynamic.
Arguments Val {A} a.
Arguments Raise {A} e.
Arguments Dynamic {A}.

(** ** class Task *)

Record Task : Type := mkTask {
  description : string;
  due_date : option string;
  priority : Z;
  completed : bool;
  created_at : string
}.

Definition set_priority (p : Z) (t : Task) : Task :=
  mkTask (description t) (due_date t) p (completed t) (created_at t).
Definition set_completed (c : bool) (t : Task) : Task :=
  mkTask (description t) (due_date t) (priority t) c (created_at t).
Definition set_created_at (s : string) (t : Task) : Task :=
  mkTask (description t) (due_date t) (priority t) (completed t) s.

(** [Task.__init__]; [clock] is what
    [datetime.now().strftime("%Y-%m-%d %H:%M")] returns at the call. *)
Definition Task_init (clock : string) (description : string)
    (due_date : option string) (priority : Z) (completed : bool) : Task :=
  let self := mkTask description due_date priority completed clock in
  if negb (bool_decide (priority ∈ [1; 2; 3]))
  then set_priority 2 self
  else self.

(** Keyword arguments as [add_task] forwards them: an absent keyword is
    [None] and takes the default of [Task.__init__].  For [due_date] the
    default is Python's [None] itself, so one option covers both. *)
Record kwargs : Type := mkKwargs {
  kw_due_date : option string;
  kw_priority : option Z;
  kw_completed : option bool
}.

Definition Task_call (clock : string) (description : string) (kw : kwargs) : Task :=
  Task_init clock description (kw_due_date kw)
    (default 2 (kw_priority kw)) (default false (kw_completed kw)).

Definition priority_map : list (Z * string) :=
  [(1, "High"); (2, "Medium"); (3, "Low")].

(** Subscripting a dict literal: the first entry with an equal key. *)
Fixpoint dict_get {V} (d : list (Z * V)) (k : Z) : option V :=
  match d with
  | [] => None
  | (k', v) :: d' => if bool_decide (k' = k) then Some v else dict_get d' k
  end.

(** Truth value of a Python string. *)
Definition str_truthy (s : string) : bool :=
  match s with EmptyString => false | _ => true end.

(** [Task.__str__] *)
Definition Task_str (self : Task) : res string :=
  let status := if completed self then "✓" else " " in
  let due_date_str :=
    match due_date self with
    | Some d => if str_truthy d then ", Due: " +:+ d else EmptyString
    | None => EmptyString
    end in
  match dict_get priority_map (priority self) with
  | Some label =>
      Val ("[" +:+ status +:+ "] " +:+ description self +:+ " "
           +:+ "(Priority: " +:+ label +:+ due_date_str +:+ ")")
  | None => Raise (KeyError (JInt (priority self)))
  end.

(** ** The world outside the store *)

(** What a file holds: text that [json.load] parses to [doc], or text it
    rejects, with the decoder's message.  [JsonText doc] is also what
    [json.dump] leaves in the file for [doc]: the json module reads back
    the value it wrote. *)
Inductive content : Type :=
| JsonText (doc : json)
| BadText (msg : string).

Record World : Type := mkWorld {
  files : gmap string content;
  (** paths that [open(path, 'r')] refuses, with the OS error text *)
  unreadable : gmap string string;
  (** paths that [open(path, 'w')] refuses, with the OS error text *)
  unwritable : gmap string string;
  (** the current time, formatted to the minute *)
  now : string;
  (** lines printed so far, oldest first *)
  stdout : list string
}.

Definition with_files (fs : gmap string content) (w : World) : World :=
  mkWorld fs (unreadable w) (unwritable w) (now w) (stdout w).
Definition with_now (clock : string) (w : World) : World :=
  mkWorld (files w) (unreadable w) (unwritable w) clock (stdout w).
Definition with_stdout (out : list string) (w : World) : World :=
  mkWorld (files w) (unreadable w) (unwritable w) (now w) out.

(** ** class TodoList *)

Record TodoList : Type := mkTodoList {
  filename : string;
  tasks : list Task
}.

Record St : Type := mkSt { self : TodoList; world : World }.

Definition M (A : Type) : Type := St → res A * St.

Definition ret {A} (a : A) : M A := λ st, (Val a, st).
Definition bind {A B} (m : M A) (k : A → M B) : M B :=
  λ st, match m st with
        | (Val a, st') => k a st'
        | (Raise e, st') => (Raise e, st')
        | (Dynamic, st') => (Dynamic, st')
        end.
Definition lift {A} (r : res A) : M A := λ st, (r, st).
Definition raise {A} (e : exn) : M A := lift (Raise e).

Declare Scope todo_scope.
Delimit Scope todo_scope with todo.
Notation "x <- m ;; k" := (bind m (fun x => k))
  (at level 100, m at next level, right associativity) : todo_scope.
Notation "m ;; k" := (bind m (fun _ => k))
  (at level 100, right associativity) : todo_scope.
Open Scope todo_scope.

(** [try: body except <handled>: handler].  The state reached when the
    exception was raised is the one the handler starts from. *)
Definition try_except {A} (body : M A) (handler : exn → option (M A)) : M A :=
  λ st, match body st with
        | (Raise e, st') =>
            match handler e with
            | Some h => h st'
            | None => (Raise e, st')
            end
        | r => r
        end.

Definition get_tasks : M (list Task) := λ st, (Val (tasks (self st)), st).
Definition set_tasks (ts : list Task) : M unit :=
  λ st, (Val tt, mkSt (mkTodoList (filename (self st)) ts) (world st)).
Definition get_filename : M string := λ st, (Val (filename (self st)), st).
Definition get_world : M World := λ st, (Val (world st), st).
Definition set_world (w : World) : M unit := λ st, (Val tt, mkSt (self st) w).

Definition print (line : string) : M unit :=
  w <- get_world;;
  set_world (with_stdout (stdout w ++ [line]) w).

(** [Task(description, **kwargs)], reading the clock. *)
Definition Task_new (description : string) (kw : kwargs) : M Task :=
  w <- get_world;;
  ret (Task_call (now w) description kw).

(** *** Python sequences *)

(** The position [l[i]] and [l.pop(i)] address: indices count from the
    front when non-negative and from the back when negative; outside
    [-len(l) .. len(l)-1] there is none and the operation raises. *)
Definition py_position {A} (l : list A) (i : Z) : option nat :=
  let n := Z.of_nat (length l) in
  if bool_decide (0 ≤ i < n) then Some (Z.to_nat i)
  else if bool_decide (- n ≤ i < 0) then Some (Z.to_nat (n + i))
  else None.

(** [self.tasks[i]]: the position of the object referred to, and its
    current value. *)
Definition tasks_index (i : Z) : M (nat * Task) :=
  ts <- get_tasks;;
  match py_position ts i with
  | Some k =>
      match ts !! k with
      | Some t => ret (k, t)
      | None => raise IndexError
      end
  | None => raise IndexError
  end.

(** The largest value of the C type [Py_ssize_t] on a 64-bit build of
    CPython, the type at which [list.pop] takes its argument. *)
Definition PY_SSIZE_T_MAX : Z := 2 ^ 63 - 1.

(** Whether the integer [i] converts to [Py_ssize_t]. *)
Definition index_sized (i : Z) : bool :=
  bool_decide (- PY_SSIZE_T_MAX - 1 ≤ i ≤ PY_SSIZE_T_MAX).

(** [self.tasks.pop(i)].  The two ways of failing differ, and only the
    first is an [IndexError]: an index that converts to [Py_ssize_t] and
    addresses no position raises [IndexError] (pop index out of range),
    one that does not convert raises [OverflowError].  [self.tasks[i]]
    above has the one failure: subscripting reports an index of any size
    that addresses no position as [IndexError].

    A list holds at most [PY_SSIZE_T_MAX] items, so an index that
    addresses a position always converts; the conversion therefore only
    decides between the two exceptions ([tasks_pop_converts_first]
    below compares the two orders of the tests). *)
Definition tasks_pop (i : Z) : M Task :=
  ts <- get_tasks;;
  match py_position ts i with
  | Some k =>
      match ts !! k with
      | Some t => set_tasks (delete k ts);; ret t
      | None => raise IndexError
      end
  | None => if index_sized i then raise IndexError else raise OverflowError
  end.

(** Assignment to an attribute of the task object stored at position [k]. *)
Definition tasks_update (k : nat) (f : Task → Task) : M Task :=
  ts <- get_tasks;;
  match ts !! k with
  | Some t => set_tasks (<[k := f t]> ts);; ret (f t)
  | None => raise IndexError
  end.

(** *** save_tasks *)

Definition task_record (task : Task) : json :=
  JObj [("description", JStr (description task));
        ("due_date", match due_date task with
                     | Some d => JStr d
                     | None => JNull
                     end);
        ("priority", JInt (priority task));
        ("completed", JBool (completed task));
        ("created_at", JStr (created_at task))].

(** [with open(path, 'w') as f: json.dump(data, f, indent=2)] *)
Definition write_json (path : string) (data : json) : M unit :=
  w <- get_world;;
  match unwritable w !! path with
  | Some msg => raise (IOError msg)
  | None =>
      set_world (with_files (<[path := JsonText data]> (files w)) w)
  end.

Definition save_tasks : M unit :=
  ts <- get_tasks;;
  let task_data := JList (map task_record ts) in
  path <- get_filename;;
  try_except (write_json path task_data)
    (λ e, match e with
          | IOError msg => Some (print ("Error saving tasks: " +:+ msg))
          | _ => None
          end).

(** *** load_tasks *)

(** [with open(path, 'r') as f: json.load(f)] *)
Definition read_json (path : string) : M json :=
  w <- get_world;;
  match unreadable w !! path with
  | Some msg => raise (IOError msg)
  | None =>
      match files w !! path with
      | Some (JsonText doc) => ret doc
      | Some (BadText msg) => raise (JSONDecodeError msg)
      | None => raise (IOError "No such file or directory")
      end
  end.

(** [os.path.exists(path)] *)
Definition path_exists (path : string) : M bool :=
  w <- get_world;;
  ret (bool_decide (is_Some (files w !! path))).

(** The one-character strings a string is iterated as. *)
Fixpoint chars (s : string) : list string :=
  match s with
  | EmptyString => []
  | String c s' => String c EmptyString :: chars s'
  end.

(** [for data in task_data]: the items the loop visits. *)
Definition py_iter (v : json) : res (list json) :=
  match v with
  | JList items => Val items
  | JObj fields => Val (map (λ kv, JStr (fst kv)) fields)
  | JStr s => Val (map JStr (chars s))
  | JNull | JBool _ | JInt _ => Raise TypeError
  end.

Fixpoint assoc (fields : list (string * json)) (key : string) : option json :=
  match fields with
  | [] => None
  | (k, v) :: fields' => if bool_decide (k = key) then Some v else assoc fields' key
  end.

(** [data[key]] with a string key. *)
Definition subscript (data : json) (key : string) : res json :=
  match data with
  | JObj fields =>
      match assoc fields key with
      | Some v => Val v
      | None => Raise (KeyError (JStr key))
      end
  | _ => Raise TypeError
  end.

(** [data.get(key, dflt)] *)
Definition dict_get_default (data : json) (key : string) (dflt : json) : res json :=
  match data with
  | JObj fields => Val (default dflt (assoc fields key))
  | _ => Raise TypeError
  end.

(** Reading a JSON value at the annotated type of the attribute. *)
Definition as_str (v : json) : res string :=
  match v with JStr s => Val s | _ => Dynamic end.
Definition as_optional_str (v : json) : res (option string) :=
  match v with JStr s => Val (Some s) | JNull => Val None | _ => Dynamic end.
Definition as_int (v : json) : res Z :=
  match v with JInt n => Val n | _ => Dynamic end.
Definition as_bool (v : json) : res bool :=
  match v with JBool b => Val b | _ => Dynamic end.

(** One turn of the loop in [load_tasks]: the four subscripts are
    evaluated in the order of the call's arguments, then the task is
    built, then [created_at] is overwritten, then the task is appended.
    The [as_...] steps are where a value of another type than the
    attribute's ends the run with [Dynamic]; they come after the
    subscripts, so that every [KeyError] is the one Python raises. *)
Definition load_record (data : json) : M unit :=
  v_description <- lift (subscript data "description");;
  v_due_date <- lift (subscript data "due_date");;
  v_priority <- lift (subscript data "priority");;
  v_completed <- lift (subscript data "completed");;
  d <- lift (as_str v_description);;
  dd <- lift (as_optional_str v_due_date);;
  p <- lift (as_int v_priority);;
  c <- lift (as_bool v_completed);;
  w <- get_world;;
  let task := Task_init (now w) d dd p c in
  v_created_at <- lift (dict_get_default data "created_at" (JStr "Unknown"));;
  ca <- lift (as_str v_created_at);;
  let task := set_created_at ca task in
  ts <- get_tasks;;
  set_tasks (ts ++ [task]).

Fixpoint load_loop (items : list json) : M unit :=
  match items with
  | [] => ret tt
  | data :: items' => load_record data;; load_loop items'
  end.

Definition load_tasks : M unit :=
  path <- get_filename;;
  found <- path_exists path;;
  if negb found then ret tt
  else
    try_except
      (task_data <- read_json path;;
       set_tasks [];;
       items <- lift (py_iter task_data);;
       load_loop items)
      (λ e, match e with
            | IOError msg | JSONDecodeError msg =>
                Some (print ("Error loading tasks: " +:+ msg))
            | _ => None
            end).

(** [TodoList(filename)] in world [w]. *)
Definition TodoList_init (filename : string) (w : World) : res unit * St :=
  load_tasks (mkSt (mkTodoList filename []) w).

(** *** add_task, view_tasks, mark_completed, delete_task *)

Definition add_task (description : string) (kw : kwargs) : M unit :=
  new_task <- Task_new description kw;;
  ts <- get_tasks;;
  set_tasks (ts ++ [new_task]);;
  save_tasks;;
  s <- lift (Task_str new_task);;
  print ("Added task: " +:+ s).

(** Truth value of [priority_filter]: [None] and [0] are false. *)
Definition filter_truthy (priority_filter : option Z) : bool :=
  match priority_filter with
  | Some n => negb (bool_decide (n = 0))
  | None => false
  end.

(** [task.priority != priority_filter] *)
Definition priority_differs (p : Z) (priority_filter : option Z) : bool :=
  match priority_filter with
  | Some n => negb (bool_decide (p = n))
  | None => true
  end.

(** The [for i, task in enumerate(self.tasks, 1)] loop, from index [i]. *)
Fixpoint view_loop (show_completed : bool) (priority_filter : option Z)
    (i : Z) (ts : list Task) : M unit :=
  match ts with
  | [] => ret tt
  | task :: ts' =>
      (if completed task && negb show_completed then ret tt
       else if filter_truthy priority_filter
                 && priority_differs (priority task) priority_filter
       then ret tt
       else s <- lift (Task_str task);;
            print (pretty i +:+ ". " +:+ s));;
      view_loop show_completed priority_filter (i + 1) ts'
  end.

(** The lines [view_tasks] frames its output with; ["\n"] is the
    line feed. *)
Definition view_header : string := String "010" "--- To-Do List ---".
Definition view_footer : string := "------------------" +:+ String "010" EmptyString.
Definition view_empty : string := "No tasks found. Add some tasks to get started!".

Definition view_tasks (show_completed : bool) (priority_filter : option Z) : M unit :=
  print view_header;;
  ts <- get_tasks;;
  match ts with
  | [] => print view_empty
  | _ =>
      view_loop show_completed priority_filter 1 ts;;
      print view_footer
  end.

Definition invalid_task_number : string :=
  "Error: Invalid task number. Please try again.".

Definition on_IndexError (h : M unit) (e : exn) : option (M unit) :=
  match e with IndexError => Some h | _ => None end.

Definition mark_completed (task_index : Z) : M unit :=
  try_except
    (found <- tasks_index (task_index - 1);;
     task <- tasks_update (fst found) (set_completed true);;
     save_tasks;;
     s <- lift (Task_str task);;
     print ("Marked task as completed: " +:+ s))
    (on_IndexError (print invalid_task_number)).

Definition delete_task (task_index : Z) : M unit :=
  try_except
    (removed_task <- tasks_pop (task_index - 1);;
     save_tasks;;
     s <- lift (Task_str removed_task);;
     print ("Deleted task: " +:+ s))
    (on_IndexError (print invalid_task_number)).

(** ** The menu: display_menu, get_task_details, main

    The functions that talk to the terminal.  What the user types is a
    list of lines still to be read; [input] takes the first. *)

(** *** Strings as the menu handles them

    The menu's string methods are modelled on ASCII text; [input] ends
    the run with [CDynamic] on a line with any other character, for which
    Python consults Unicode tables the model does not carry. *)

Definition code (c : ascii) : N := N_of_ascii c.

Fixpoint ascii_only (s : string) : bool :=
  match s with
  | EmptyString => true
  | String c s' => (code c <? 128)%N && ascii_only s'
  end.

(** [c.isspace()]: tab, line feed, vertical tab, form feed, carriage
    return, the four separators 28 to 31, and the space. *)
Definition is_space (c : ascii) : bool :=
  ((9 <=? code c) && (code c <=? 13))%N
  || ((28 <=? code c) && (code c <=? 32))%N.

Fixpoint lstrip (s : string) : string :=
  match s with
  | EmptyString => EmptyString
  | String c s' => if is_space c then lstrip s' else s
  end.

Fixpoint rstrip (s : string) : string :=
  match s with
  | EmptyString => EmptyString
  | String c s' =>
      match rstrip s' with
      | EmptyString => if is_space c then EmptyString else String c EmptyString
      | kept => String c kept
      end
  end.

(** [s.strip()] *)
Definition strip (s : string) : string := rstrip (lstrip s).

Definition lower_char (c : ascii) : ascii :=
  if ((65 <=? code c) && (code c <=? 90))%N
  then ascii_of_N (code c + 32)
  else c.

(** [s.lower()] *)
Fixpoint lower (s : string) : string :=
  match s with
  | EmptyString => EmptyString
  | String c s' => String (lower_char c) (lower s')
  end.

Definition is_digit (c : ascii) : bool := ((48 <=? code c) && (code c <=? 57))%N.

Fixpoint all_digits (s : string) : bool :=
  match s with
  | EmptyString => true
  | String c s' => is_digit c && all_digits s'
  end.

(** [s.isdigit()]: at least one character, and digits only. *)
Definition isdigit (s : string) : bool := str_truthy s && all_digits s.

Definition digit_value (c : ascii) : Z := Z.of_N (code c) - 48.

(** The digits of an integer literal after [acc]: digits, with single
    underscores allowed between two of them.  [after_digit] tells
    whether the character before was a digit. *)
Fixpoint literal_digits (after_digit : bool) (acc : Z) (s : string) : option Z :=
  match s with
  | EmptyString => if after_digit then Some acc else None
  | String c s' =>
      if is_digit c then literal_digits true (10 * acc + digit_value c) s'
      else if bool_decide (c = "_"%char) && after_digit
      then match s' with
           | String c' _ => if is_digit c' then literal_digits false acc s' else None
           | EmptyString => None
           end
      else None
  end.

(** The value of a decimal integer literal: an optional sign, then the
    digits. *)
Definition int_literal (s : string) : option Z :=
  match s with
  | String "+" s' => literal_digits false 0 s'
  | String "-" s' => Z.opp <$> literal_digits false 0 s'
  | _ => literal_digits false 0 s
  end.

(** *** Results and state of the menu *)

Inductive console_exn : Type :=
| StoreError (e : exn)
| EOFError
| ValueError.

Inductive cres (A : Type) : Type :=
| CVal (a : A)
| CRaise (e : console_exn)
| CDynamic.
Arguments CVal {A} a.
Arguments CRaise {A} e.
Arguments CDynamic {A}.

(** The longest text [int] converts in every version of the
    interpreter; later versions refuse longer ones. *)
Definition max_str_digits : nat := 4300.

(** [int(s)] for text that [strip] returned.  Text with white space
    around it, which the program never converts, and literals beyond
    [max_str_digits] end the run with [CDynamic]. *)
Definition py_int (s : string) : cres Z :=
  if negb (bool_decide (strip s = s)) then CDynamic
  else match int_literal s with
       | Some n => if bool_decide (String.length s ≤ max_str_digits)%nat
                   then CVal n else CDynamic
       | None => CRaise ValueError
       end.

Record Console : Type := mkConsole {
  (** the lines the user is still to type *)
  stdin : list string;
  store : St
}.

Definition C (A : Type) : Type := Console → cres A * Console.

Definition cret {A} (a : A) : C A := λ c, (CVal a, c).
Definition cbind {A B} (m : C A) (k : A → C B) : C B :=
  λ c, match m c with
       | (CVal a, c') => k a c'
       | (CRaise e, c') => (CRaise e, c')
       | (CDynamic, c') => (CDynamic, c')
       end.
Definition clift {A} (r : cres A) : C A := λ c, (r, c).

(** A call into the store layer; an exception of the store goes on as
    it is. *)
Definition call {A} (m : M A) : C A :=
  λ c, match m (store c) with
       | (Val a, st') => (CVal a, mkConsole (stdin c) st')
       | (Raise e, st') => (CRaise (StoreError e), mkConsole (stdin c) st')
       | (Dynamic, st') => (CDynamic, mkConsole (stdin c) st')
       end.

Declare Scope console_scope.
Delimit Scope console_scope with console.
Notation "x <- m ;; k" := (cbind m (fun x => k))
  (at level 100, m at next level, right associativity) : console_scope.
Notation "m ;; k" := (cbind m (fun _ => k))
  (at level 100, right associativity) : console_scope.
Open Scope console_scope.

(** Taking the next line typed: [EOFError] when there is none. *)
Definition read_line : C string :=
  λ c, match stdin c with
       | [] => (CRaise EOFError, c)
       | line :: rest =>
           (if ascii_only line then CVal line else CDynamic,
            mkConsole rest (store c))
       end.

(** [input(prompt)].  The prompt goes to the output, where it is
    recorded like a printed line, though no line feed follows it. *)
Definition input (prompt : string) : C string :=
  call (print prompt);; read_line.

(** [try: body except ValueError: handler] *)
Definition except_ValueError {A} (body : C A) (handler : C A) : C A :=
  λ c, match body c with
       | (CRaise ValueError, c') => handler c'
       | r => r
       end.

(** *** display_menu *)

Definition display_menu : C unit :=
  call (print (String "010" "To-Do List Application"));;
  call (print "1. Add Task");;
  call (print "2. View Tasks");;
  call (print "3. Mark Task as Completed");;
  call (print "4. Delete Task");;
  call (print "5. Exit").

(** *** get_task_details *)

(** The dict [get_task_details] returns. *)
Record task_details : Type := mkDetails {
  td_description : string;
  td_due_date : option string;
  td_priority : Z
}.

Definition ask_description : string := "Enter task description: ".
Definition description_empty : string := "Description cannot be empty!".

(** [while not description: print(...); description = input(...).strip()],
    by recursion on the lines left to type: each turn takes one, as
    [input] does. *)
Fixpoint retry_description (lines : list string) (description : string)
    (st : St) : cres string * Console :=
  if negb (str_truthy description)
  then
    let st := snd (print description_empty st) in
    let st := snd (print ask_description st) in
    match lines with
    | [] => (CRaise EOFError, mkConsole [] st)
    | line :: rest =>
        if ascii_only line
        then retry_description rest (strip line) st
        else (CDynamic, mkConsole rest st)
    end
  else (CVal description, mkConsole lines st).

Definition get_task_details : C task_details :=
  line <- input ask_description;;
  description <- (λ c, retry_description (stdin c) (strip line) (store c));;
  line <- input "Enter due date (YYYY-MM-DD, optional): ";;
  let due_date := strip line in
  line <- input "Enter priority (1=High, 2=Medium, 3=Low, default 2): ";;
  let priority := strip line in
  priority <- except_ValueError
                (if str_truthy priority then clift (py_int priority) else cret 2)
                (cret 2);;
  cret (mkDetails description
          (if str_truthy due_date then Some due_date else None)
          priority).

(** *** main *)

Definition invalid_number : string := "Invalid task number!".
Definition invalid_choice : string :=
  "Invalid choice. Please enter a number between 1-5.".

(** The [if]/[elif] chain on the choice typed; [false] is the [break]. *)
Definition dispatch (choice : string) : C bool :=
  if bool_decide (choice = "1") then
    details <- get_task_details;;
    call (add_task (td_description details)
            (mkKwargs (td_due_date details) (Some (td_priority details)) None));;
    cret true
  else if bool_decide (choice = "2") then
    line <- input "Show completed tasks? (y/n): ";;
    let show_completed := bool_decide (lower line = "y") in
    line <- input "Filter by priority? (1/2/3, leave blank for all): ";;
    let filter_input := strip line in
    priority_filter <-
      (if bool_decide (filter_input ∈ ["1"; "2"; "3"])
       then n <- clift (py_int filter_input);; cret (Some n)
       else cret None);;
    call (view_tasks show_completed priority_filter);;
    cret true
  else if bool_decide (choice = "3") then
    call (view_tasks true None);;
    line <- input "Enter task number to mark as completed: ";;
    let task_num := strip line in
    (if isdigit task_num
     then n <- clift (py_int task_num);; call (mark_completed n)
     else call (print invalid_number));;
    cret true
  else if bool_decide (choice = "4") then
    call (view_tasks true None);;
    line <- input "Enter task number to delete: ";;
    let task_num := strip line in
    (if isdigit task_num
     then n <- clift (py_int task_num);; call (delete_task n)
     else call (print invalid_number));;
    cret true
  else if bool_decide (choice = "5") then
    call (print "Goodbye!");;
    cret false
  else
    call (print invalid_choice);;
    cret true.

(** One turn of the [while True] loop. *)
Definition menu_turn : C bool :=
  display_menu;;
  line <- input (String "010" "Enter your choice (1-5): ");;
  let choice := strip line in
  dispatch choice.

(** The [while True] loop, for at most [fuel] turns; [None] when the
    turns are used up. *)
Fixpoint main_loop (fuel : nat) (c : Console) : option (cres unit * Console) :=
  match fuel with
  | O => None
  | S fuel' =>
      match menu_turn c with
      | (CVal true, c') => main_loop fuel' c'
      | (CVal false, c') => Some (CVal tt, c')
      | (CRaise e, c') => Some (CRaise e, c')
      | (CDynamic, c') => Some (CDynamic, c')
      end
  end.

(** [main()], with the lines the user will type and the world it starts
    in.  Every turn that goes on to the next has taken a line, so one
    turn more than there are lines is enough. *)
Definition main (lines : list string) (w : World) : option (cres unit * Console) :=
  match TodoList_init "tasks.json" w with
  | (Val _, st) => main_loop (S (length lines)) (mkConsole lines st)
  | (Raise e, st) => Some (CRaise (StoreError e), mkConsole lines st)
  | (Dynamic, st) => Some (CDynamic, mkConsole lines st)
  end.

Close Scope console_scope.

(** * cal.py: the questions and the character pool of the password generator

    The parts of [src/cal.py] that do not draw random numbers.  The
    terminal is the lines still to be typed and the lines written;
    [input] is as in the menu of todo.py. *)

Record Terminal : Type := mkTerminal {
  keys : list string;
  screen : list string
}.

(** *** get_password_length *)

Definition ask_length : string := "Enter password length (8-64): ".
Definition length_out_of_range : string := "Please enter a number between 8 and 64".
Definition length_not_a_number : string := "Invalid input! Please enter a number.".

(** The [while True] loop, by recursion on the lines left to type: each
    turn takes one.  [ValueError] is the one exception the loop
    handles. *)
Fixpoint get_password_length_from (lines : list string) (out : list string)
    : cres Z * Terminal :=
  let out := (out ++ [ask_length])%list in
  match lines with
  | [] => (CRaise EOFError, mkTerminal [] out)
  | line :: rest =>
      if ascii_only line
      then
        match py_int (strip line) with
        | CVal length =>
            if bool_decide (8 ≤ length ≤ 64)
            then (CVal length, mkTerminal rest out)
            else get_password_length_from rest (out ++ [length_out_of_range])
        | CRaise ValueError =>
            get_password_length_from rest (out ++ [length_not_a_number])
        | CRaise e => (CRaise e, mkTerminal rest out)
        | CDynamic => (CDynamic, mkTerminal rest out)
        end
      else (CDynamic, mkTerminal rest out)
  end.

Definition get_password_length (t : Terminal) : cres Z * Terminal :=
  get_password_length_from (keys t) (screen t).

(** *** get_character_options *)

Definition ask_uppercase : string := "Include uppercase letters? (Y/n): ".
Definition ask_digits : string := "Include digits? (Y/n): ".
Definition ask_special : string := "Include special characters? (y/N): ".
Definition no_set_enabled : string :=
  String "010" "Error: You must enable at least one character set!".

(** [any(options.values())] *)
Definition any_enabled (options : gmap string bool) : bool :=
  bool_decide (Exists (λ kv, kv.2 = true) (map_to_list options)).

(** The three assignments [options[...] = input(...).lower() ...], which
    the source writes out twice: before the loop and in its body. *)
Definition ask_three (options : gmap string bool) (lines : list string)
    (out : list string)
    : cres (gmap string bool) * Terminal :=
  let out := (out ++ [ask_uppercase])%list in
  match lines with
  | [] => (CRaise EOFError, mkTerminal [] out)
  | l1 :: rest1 =>
      if negb (ascii_only l1) then (CDynamic, mkTerminal rest1 out)
      else
        let options := <["uppercase" := negb (bool_decide (lower l1 = "n"))]> options in
        let out := (out ++ [ask_digits])%list in
        match rest1 with
        | [] => (CRaise EOFError, mkTerminal [] out)
        | l2 :: rest2 =>
            if negb (ascii_only l2) then (CDynamic, mkTerminal rest2 out)
            else
              let options := <["digits" := negb (bool_decide (lower l2 = "n"))]> options in
              let out := (out ++ [ask_special])%list in
              match rest2 with
              | [] => (CRaise EOFError, mkTerminal [] out)
              | l3 :: rest3 =>
                  if negb (ascii_only l3) then (CDynamic, mkTerminal rest3 out)
                  else
                    (CVal (<["special" := bool_decide (lower l3 = "y")]> options),
                     mkTerminal rest3 out)
              end
        end
  end.

(** [while not any(options.values()): ...], for at most [fuel] turns;
    [None] when the turns are used up.  A turn that goes on has taken
    three lines. *)
Fixpoint ask_until_enabled (fuel : nat) (options : gmap string bool)
    (t : Terminal) : option (cres (gmap string bool) * Terminal) :=
  if any_enabled options then Some (CVal options, t)
  else
    match fuel with
    | O => None
    | S fuel' =>
        match ask_three options (keys t) (screen t ++ [no_set_enabled]) with
        | (CVal options', t') => ask_until_enabled fuel' options' t'
        | r => Some r
        end
    end.

Definition default_options : gmap string bool :=
  {[ "lowercase" := true; "uppercase" := true; "digits" := true; "special" := false ]}.

Definition get_character_options (t : Terminal)
    : option (cres (gmap string bool) * Terminal) :=
  let out := (screen t ++ [String "010" "Character Set Options:"])%list in
  match ask_three default_options (keys t) out with
  | (CVal options, t') => ask_until_enabled (S (length (keys t'))) options t'
  | r => Some r
  end.

(** *** generate_character_pool *)

Definition ascii_lowercase : string := "abcdefghijklmnopqrstuvwxyz".
Definition ascii_uppercase : string := "ABCDEFGHIJKLMNOPQRSTUVWXYZ".
Definition digits : string := "0123456789".
Definition special_characters : string := "!@#$%^&*()-_=+".

(** [options.get(key, dflt)] *)
Definition option_get (options : gmap string bool) (key : string) (dflt : bool) : bool :=
  default dflt (options !! key).

Definition generate_character_pool (options : gmap string bool) : list ascii :=
  let pool := [] in
  let pool := if option_get options "lowercase" true
              then (pool ++ list_ascii_of_string ascii_lowercase)%list else pool in
  let pool := if option_get options "uppercase" true
              then (pool ++ list_ascii_of_string ascii_uppercase)%list else pool in
  let pool := if option_get options "digits" true
              then (pool ++ list_ascii_of_string digits)%list else pool in
  let pool := if option_get options "special" false
              then (pool ++ list_ascii_of_string special_characters)%list else pool in
  pool.

(** * Vocabulary of the statements *)

(** The state every task built by [Task.__init__] is in. *)
Definition task_ok (t : Task) : Prop := priority t ∈ [1; 2; 3].

(** The text [Task.__str__] builds for a task in the state [task_ok]. *)
Definition status_mark (t : Task) : string := if completed t then "✓" else " ".
Definition due_suffix (t : Task) : string :=
  match due_date t with
  | Some d => if str_truthy d then ", Due: " +:+ d else EmptyString
  | None => EmptyString
  end.
Definition label_of (p : Z) : string :=
  if bool_decide (p = 1) then "High"
  else if bool_decide (p = 2) then "Medium" else "Low".
Definition Task_text (t : Task) : string :=
  "[" +:+ status_mark t +:+ "] " +:+ description t +:+ " (Priority: "
      +:+ label_of (priority t) +:+ due_suffix t +:+ ")".

(** A text is one line when it holds no line feed. *)
Fixpoint one_line (s : string) : bool :=
  match s with
  | EmptyString => true
  | String c s' => negb (bool_decide (c = "010"%char)) && one_line s'
  end.

(** What the specification asks of Render: it returns, and what it
    returns is one line. *)
Definition renders_one_line (t : Task) : Prop :=
  ∃ s, Task_str t = Val s ∧ one_line s = true.

(** The world [save_tasks] leaves behind: the file rewritten, or the
    error line printed when the path cannot be opened for writing. *)
Definition saved_world (s : TodoList) (w : World) : World :=
  match unwritable w !! filename s with
  | Some msg => with_stdout (stdout w ++ ["Error saving tasks: " +:+ msg]) w
  | None =>
      with_files (<[filename s := JsonText (JList (map task_record (tasks s)))]> (files w)) w
  end.

Definition printed (line : string) (w : World) : World :=
  with_stdout (stdout w ++ [line]) w.

(** The task a 1-based position names in the sequence. *)
Definition task_at (ts : list Task) (q : Z) : option Task :=
  if bool_decide (1 ≤ q) then ts !! Z.to_nat (q - 1) else None.

Definition store_ok (st : St) : Prop := Forall task_ok (tasks (self st)).

Definition rbind {A B} (r : res A) (k : A → res B) : res B :=
  match r with
  | Val a => k a
  | Raise e => Raise e
  | Dynamic => Dynamic
  end.

(** The task one turn of the loading loop appends for [data], or the way
    the turn ends without appending. *)
Definition record_task (clock : string) (data : json) : res Task :=
  rbind (subscript data "description") (λ v_description,
  rbind (subscript data "due_date") (λ v_due_date,
  rbind (subscript data "priority") (λ v_priority,
  rbind (subscript data "completed") (λ v_completed,
  rbind (as_str v_description) (λ d,
  rbind (as_optional_str v_due_date) (λ dd,
  rbind (as_int v_priority) (λ p,
  rbind (as_bool v_completed) (λ c,
  rbind (dict_get_default data "created_at" (JStr "Unknown")) (λ v_created_at,
  rbind (as_str v_created_at) (λ ca,
  Val (set_created_at ca (Task_init clock d dd p c)))))))))))).

Ltac step_res :=
  match goal with
  | |- context [rbind ?r _] => destruct r; simpl; try reflexivity
  end.

(** A record as [save_tasks] writes it, except that [created_at] may be
    missing: every other field is there with a value of its type. *)
Definition well_formed (data : json) : Prop :=
  ∃ fields d v_due p c,
    data = JObj fields
    ∧ assoc fields "description" = Some (JStr d)
    ∧ assoc fields "due_date" = Some v_due
    ∧ (v_due = JNull ∨ ∃ s, v_due = JStr s)
    ∧ assoc fields "priority" = Some (JInt p)
    ∧ assoc fields "completed" = Some (JBool c)
    ∧ (assoc fields "created_at" = None
       ∨ ∃ s, assoc fields "created_at" = Some (JStr s)).

Definition json_of_due_date (dd : option string) : json :=
  match dd with Some s => JStr s | None => JNull end.

(** What the specification asks of Add for an empty description: the
    call ends in an error and the store and the world stay as they
    were. *)
Definition rejects_empty_description (st : St) (kw : kwargs) : Prop :=
  ∃ e, add_task EmptyString kw st = (Raise e, st).

(** The filter of List, in the words of the specification: a task is
    listed unless it is completed and completed tasks are not shown, and
    only if its priority equals the filter when one is given. *)
Definition List_keeps (show_completed : bool) (priority_filter : option Z)
    (t : Task) : bool :=
  negb (completed t && negb show_completed)
  && match priority_filter with
     | Some n => bool_decide (priority t = n)
     | None => true
     end.

(** The tasks with their positions, counting from [i]. *)
Fixpoint enumerate_from (i : Z) (ts : list Task) : list (Z * Task) :=
  match ts with
  | [] => []
  | t :: ts' => (i, t) :: enumerate_from (i + 1) ts'
  end.

Definition List_spec (show_completed : bool) (priority_filter : option Z)
    (ts : list Task) : list (Z * Task) :=
  filter (λ it, List_keeps show_completed priority_filter it.2 = true)
    (enumerate_from 1 ts).

(** The line [view_tasks] prints for a listed task. *)
Definition row (it : Z * Task) : string :=
  pretty it.1 +:+ ". " +:+ Task_text it.2.

(** ** Sample stores and worlds *)

Definition milk : Task :=
  mkTask "Buy milk" (Some "2024-01-10") 1 false "2024-01-01 10:00".
Definition bread : Task :=
  mkTask "Buy bread" None 3 false "2024-01-02 09:30".
Definition quiet_world : World := mkWorld ∅ ∅ ∅ "2024-01-03 08:00" [].

(** A description of two lines. *)
Definition two_line_description : string :=
  "Buy milk" +:+ String "010" "and bread".

Definition half_written : World :=
  mkWorld {[ "tasks.json" := JsonText (JList [task_record milk; JObj [("due_date", JNull)]]) ]}
    ∅ ∅ "2024-01-03 08:00" [].

Definition old_format : World :=
  mkWorld {[ "tasks.json" :=
               JsonText (JList [JObj [("description", JStr "Buy milk");
                                      ("due_date", JNull);
                                      ("priority", JInt 1);
                                      ("completed", JBool true)]]) ]}
    ∅ ∅ "2024-01-03 08:00" [].

Definition empty_store : St := mkSt (mkTodoList "tasks.json" []) quiet_world.
Definition no_kwargs : kwargs := mkKwargs None None None.
Definition blank : Task := mkTask EmptyString None 2 false "2024-01-03 08:00".

Definition done_milk : Task :=
  mkTask "Buy milk" None 1 true "2024-01-01 10:00".
Definition call_bank : Task :=
  mkTask "Call bank" None 1 false "2024-01-01 10:05".

(** The session of the specification's end-to-end example. *)
Definition session : M unit :=
  add_task "Buy milk" (mkKwargs (Some "2024-01-10") (Some 1) None);;
  view_tasks false None;;
  mark_completed 1;;
  view_tasks true None;;
  delete_task 1.

(** ** What an operation leaves alone *)

(** [m] keeps [R] when every run of [m], however it ends, leaves a state
    related by [R] to the one it started from. *)
Definition preserves (R : St → St → Prop) {A} (m : M A) : Prop :=
  ∀ st, R st (snd (m st)).

(** The store's own file apart, the outside is as it was: same path,
    same permissions, same clock, every other file as before, and the
    output only grown. *)
Definition own_file_only (st st' : St) : Prop :=
  filename (self st') = filename (self st)
  ∧ unreadable (world st') = unreadable (world st)
  ∧ unwritable (world st') = unwritable (world st)
  ∧ now (world st') = now (world st)
  ∧ (∀ path, path ≠ filename (self st) →
       files (world st') !! path = files (world st) !! path)
  ∧ stdout (world st) `prefix_of` stdout (world st').

(** Nothing but the output changed. *)
Definition output_only (st st' : St) : Prop :=
  self st' = self st
  ∧ files (world st') = files (world st)
  ∧ unreadable (world st') = unreadable (world st)
  ∧ unwritable (world st') = unwritable (world st)
  ∧ now (world st') = now (world st)
  ∧ stdout (world st) `prefix_of` stdout (world st').


Definition odd : Task := mkTask "Odd" None 7 false "2024-01-01 10:00".

(** ** Loading, in words *)

(** The keys [load_tasks] subscripts, in the order it does. *)
Definition required_keys : list string :=
  ["description"; "due_date"; "priority"; "completed"].

(** The first required key a record lacks. *)
Definition first_missing (fields : list (string * json)) : option string :=
  head (filter (λ key, assoc fields key = None) required_keys).

(** A file that holds no list but the number 5. *)
Definition number_world : World :=
  mkWorld {[ "tasks.json" := JsonText (JInt 5) ]} ∅ ∅ "2024-01-03 08:00" [].

(** A file whose second record lacks [priority] and [completed]. *)
Definition short_record_world : World :=
  mkWorld {[ "tasks.json" :=
               JsonText (JList [task_record milk;
                                JObj [("due_date", JNull);
                                      ("description", JStr "Buy bread")]]) ]}
    ∅ ∅ "2024-01-03 08:00" [].

Definition garbled_world : World :=
  mkWorld {[ "tasks.json" := BadText "Expecting value: line 1 column 1 (char 0)" ]}
    ∅ ∅ "2024-01-03 08:00" [].

(** ** The menu, in words *)

(** A line that holds white space only. *)
Definition blank_line (line : string) : Prop :=
  ascii_only line = true ∧ strip line = EmptyString.

(** The lines [get_task_details] writes when it finds [n] blank lines
    before the description. *)
Definition description_dialogue (n : nat) : list string :=
  ask_description
    :: mjoin (replicate n [description_empty; ask_description])
    ++ ["Enter due date (YYYY-MM-DD, optional): ";
        "Enter priority (1=High, 2=Medium, 3=Low, default 2): "].

(** The priority [get_task_details] makes of the text typed. *)
Definition priority_of_text (s : string) : Z := default 2 (int_literal s).

(** The due date [get_task_details] makes of the text typed. *)
Definition due_date_of_text (s : string) : option string :=
  if str_truthy s then Some s else None.

(** [m] keeps [R] between the consoles before and after every run. *)
Definition cpreserves (R : Console → Console → Prop) {A} (m : C A) : Prop :=
  ∀ c, R c (snd (m c)).

(** Lines are only ever taken from the front of what is left to type,
    and the store moves by [R]. *)
Definition on_store (R : St → St → Prop) (c c' : Console) : Prop :=
  stdin c' `suffix_of` stdin c ∧ R (store c) (store c').

(** The relation that asks nothing of the store. *)
Definition any_store (st st' : St) : Prop := True.

(** Every task has a description. *)
Definition described (st : St) : Prop :=
  Forall (λ t, description t ≠ EmptyString) (tasks (self st)).

(** The state the menu keeps the store in. *)
Definition menu_ok (st : St) : Prop := store_ok st ∧ described st.

Definition keeps_menu_ok (st st' : St) : Prop := menu_ok st → menu_ok st'.

Definition one_blank_task : World :=
  mkWorld {[ "tasks.json" := JsonText (JList [task_record blank]) ]}
    ∅ ∅ "2024-01-03 08:00" [].

(** ** The password generator, in words *)

(** A line [get_password_length] does not accept: text that is no
    integer literal, or an integer outside 8..64. *)
Definition rejected_length (line : string) : Prop :=
  ascii_only line = true
  ∧ (String.length (strip line) ≤ max_str_digits)%nat
  ∧ ∀ n, int_literal (strip line) = Some n → ¬ (8 ≤ n ≤ 64).

(** What [get_password_length] answers to a line it does not accept. *)
Definition length_complaint (line : string) : string :=
  match int_literal (strip line) with
  | Some _ => length_out_of_range
  | None => length_not_a_number
  end.

(** The options [get_character_options] makes of three answers. *)
Definition options_of_answers (l1 l2 l3 : string) : gmap string bool :=
  <["special" := bool_decide (lower l3 = "y")]>
    (<["digits" := negb (bool_decide (lower l2 = "n"))]>
       (<["uppercase" := negb (bool_decide (lower l1 = "n"))]> default_options)).

(** * Properties *)

(** ** Task *)

Lemma elem_of_123 (p : Z) : p ∈ [1; 2; 3] ↔ p = 1 ∨ p = 2 ∨ p = 3.
Proof. rewrite !elem_of_cons, elem_of_nil. tauto. Qed.

Lemma Task_init_priority clock d dd p c :
  priority (Task_init clock d dd p c) = if bool_decide (p ∈ [1; 2; 3]) then p else 2.
Proof. unfold Task_init. by case_bool_decide. Qed.

Lemma Task_init_ok clock d dd p c : task_ok (Task_init clock d dd p c).
Proof.
  unfold task_ok. rewrite Task_init_priority.
  case_bool_decide; [done | apply elem_of_123; auto].
Qed.

Lemma Task_init_fields clock d dd p c :
  description (Task_init clock d dd p c) = d
  ∧ due_date (Task_init clock d dd p c) = dd
  ∧ completed (Task_init clock d dd p c) = c
  ∧ created_at (Task_init clock d dd p c) = clock.
Proof. unfold Task_init. by case_bool_decide. Qed.

Lemma Task_init_id clock t :
  task_ok t →
  set_created_at (created_at t)
    (Task_init clock (description t) (due_date t) (priority t) (completed t)) = t.
Proof.
  unfold task_ok, Task_init. intros Hp.
  rewrite bool_decide_eq_true_2 by done. by destruct t.
Qed.

(** C3: construction is a total function of its arguments; the priority
    of the task built is the supplied integer when that is 1, 2 or 3 and
    2 (Medium) for every other integer, and 2 when the keyword is left
    out. *)
Theorem Task_init_normalises_priority :
  ∀ (clock description : string) (due_date : option string) (p : Z) (c : bool),
    (p ∈ [1; 2; 3] →
       priority (Task_init clock description due_date p c) = p)
    ∧ (p ∉ [1; 2; 3] →
       priority (Task_init clock description due_date p c) = 2)
    ∧ priority (Task_call clock description (mkKwargs due_date None (Some c))) = 2
    ∧ priority (Task_call clock description (mkKwargs due_date None None)) = 2.
Proof.
  intros clock d dd p c. rewrite Task_init_priority. repeat split.
  - intros Hp. by rewrite bool_decide_eq_true_2.
  - intros Hp. by rewrite bool_decide_eq_false_2.
Qed.

Lemma Task_init_normalises_priority_witness :
  priority (Task_init "2024-01-01 10:00" "Buy milk" None 3 false) = 3
  ∧ priority (Task_init "2024-01-01 10:00" "Buy milk" None 7 false) = 2.
Proof.
  split.
  - apply (proj1 (Task_init_normalises_priority
                    "2024-01-01 10:00" "Buy milk" None 3 false)).
    rewrite elem_of_123. lia.
  - apply (proj1 (proj2 (Task_init_normalises_priority
                           "2024-01-01 10:00" "Buy milk" None 7 false))).
    rewrite elem_of_123. lia.
Defined.

Lemma Task_str_ok t : task_ok t → Task_str t = Val (Task_text t).
Proof.
  unfold task_ok. rewrite elem_of_123.
  intros [Hp | [Hp | Hp]]; unfold Task_str, Task_text, label_of, status_mark, due_suffix;
    rewrite Hp; reflexivity.
Qed.

Lemma Task_str_miss t : ¬ task_ok t → Task_str t = Raise (KeyError (JInt (priority t))).
Proof.
  unfold task_ok. rewrite elem_of_123. intros Hp.
  unfold Task_str, priority_map. simpl.
  repeat (case_bool_decide; [exfalso; apply Hp; auto |]). done.
Qed.

Lemma one_line_app s1 s2 : one_line (s1 +:+ s2) = one_line s1 && one_line s2.
Proof.
  induction s1 as [| c s1 IH]; simpl; [done |].
  fold (s1 +:+ s2). rewrite IH. by rewrite andb_assoc.
Qed.

Lemma one_line_due (dd : option string) :
  one_line match dd with
           | Some x => if str_truthy x then ", Due: " +:+ x else EmptyString
           | None => EmptyString
           end = true
  ↔ ∀ x, dd = Some x → one_line x = true.
Proof.
  destruct dd as [x |]; simpl; [| by split].
  destruct x as [| a x]; simpl.
  - split; [by intros _ x [= <-] | done].
  - split; [by intros H y [= <-] | intros H; by apply (H _ eq_refl)].
Qed.

(** C9, as stated, fails: the text of a task is not always one line.
    The constructor takes any description, and [Task.__str__] copies it;
    a description of two lines gives a text of two lines. *)
Lemma Task_str_spans_lines :
  Task_str (Task_init "2024-01-03 08:00" two_line_description None 2 false)
  = Val ("[ ] Buy milk" +:+ String "010" "and bread (Priority: Medium)")
  ∧ one_line ("[ ] Buy milk" +:+ String "010" "and bread (Priority: Medium)") = false
  ∧ ¬ renders_one_line (Task_init "2024-01-03 08:00" two_line_description None 2 false).
Proof.
  split; [reflexivity |]. split; [reflexivity |].
  intros (s & Hs & Hline). vm_compute in Hs. injection Hs as <-. discriminate Hline.
Qed.

(** C9, amended: for the task the constructor builds from any
    arguments, [Task.__str__] does not fail, the look-up of the label
    included, and returns the text made of the completion mark, the
    description, the label of the priority and the due date when one is
    given and not empty.  The label is High for the priority 1, Low for
    3, and Medium for 2 and for every other integer given, which the
    constructor has replaced by 2.  The text is one line exactly when
    the description and the due date hold no line feed. *)
Theorem Task_str_never_fails :
  ∀ (clock d : string) (dd : option string) (p : Z) (c : bool),
    let t := Task_init clock d dd p c in
    let label := if bool_decide (p = 1) then "High"
                 else if bool_decide (p = 3) then "Low" else "Medium" in
    let due := match dd with
               | Some x => if str_truthy x then ", Due: " +:+ x else EmptyString
               | None => EmptyString
               end in
    let text := "[" +:+ (if c then "✓" else " ") +:+ "] " +:+ d +:+ " (Priority: "
                    +:+ label +:+ due +:+ ")" in
    Task_str t = Val text
    ∧ (one_line text = true
       ↔ one_line d = true ∧ ∀ x, dd = Some x → one_line x = true).
Proof.
  intros clock d dd p c t label due text.
  assert (Hlabel : one_line label = true).
  { unfold label. by repeat case_bool_decide. }
  split.
  - unfold t, Task_str, Task_init, text, label, due.
    destruct (decide (p = 1)) as [-> | H1]; [done |].
    destruct (decide (p = 3)) as [-> | H3]; [done |].
    rewrite (bool_decide_eq_false_2 (p = 1)), (bool_decide_eq_false_2 (p = 3)) by done.
    destruct (decide (p = 2)) as [-> | H2]; [done |].
    rewrite bool_decide_eq_false_2 by (rewrite elem_of_123; lia). done.
  - unfold text. rewrite !one_line_app, Hlabel.
    rewrite <- (one_line_due dd). fold due.
    assert (Hmark : one_line (if c then "✓" else " ") = true) by (by destruct c).
    rewrite Hmark. simpl. rewrite !andb_true_r.
    by rewrite andb_true_iff.
Qed.

Lemma Task_str_never_fails_witness :
  Task_str (Task_init "2024-01-01 10:00" "Buy milk" (Some "2024-01-10") 7 false)
  = Val "[ ] Buy milk (Priority: Medium, Due: 2024-01-10)"
  ∧ one_line "[ ] Buy milk (Priority: Medium, Due: 2024-01-10)" = true.
Proof.
  destruct (Task_str_never_fails "2024-01-01 10:00" "Buy milk"
              (Some "2024-01-10") 7 false) as [Hstr Hline].
  split; [exact Hstr |].
  apply Hline. split; [reflexivity |].
  intros x Hx. injection Hx as <-. reflexivity.
Defined.

(** ** Positions *)

Section positions.
Context {A : Type}.
Implicit Types (l : list A) (i : Z) (k : nat).

Lemma py_position_front l i :
  0 ≤ i < Z.of_nat (length l) → py_position l i = Some (Z.to_nat i).
Proof. intros Hi. unfold py_position. by rewrite bool_decide_eq_true_2. Qed.

Lemma py_position_back l i :
  - Z.of_nat (length l) ≤ i < 0 →
  py_position l i = Some (Z.to_nat (Z.of_nat (length l) + i)).
Proof.
  intros Hi. unfold py_position.
  rewrite bool_decide_eq_false_2 by lia. by rewrite bool_decide_eq_true_2.
Qed.

Lemma py_position_outside l i :
  i < - Z.of_nat (length l) ∨ Z.of_nat (length l) ≤ i → py_position l i = None.
Proof.
  intros Hi. unfold py_position.
  rewrite bool_decide_eq_false_2 by lia. by rewrite bool_decide_eq_false_2 by lia.
Qed.

Lemma py_position_Some l i k :
  py_position l i = Some k → (k < length l)%nat.
Proof.
  unfold py_position. repeat case_bool_decide; intros [= <-]; lia.
Qed.
End positions.

Lemma py_position_None {A} (l : list A) (i : Z) :
  py_position l i = None → i < - Z.of_nat (length l) ∨ Z.of_nat (length l) ≤ i.
Proof.
  unfold py_position. repeat case_bool_decide; try discriminate. lia.
Qed.

(** ** Runs of the store operations *)

Lemma save_tasks_run s w : save_tasks (mkSt s w) = (Val tt, mkSt s (saved_world s w)).
Proof.
  destruct s as [fn ts].
  unfold save_tasks, saved_world, try_except, write_json, bind, get_tasks,
    get_filename, get_world, print, set_world, raise, lift. simpl.
  destruct (unwritable w !! fn); reflexivity.
Qed.

Lemma print_run line s w : print line (mkSt s w) = (Val tt, mkSt s (printed line w)).
Proof. reflexivity. Qed.

Lemma mark_completed_at fn ts w p k t :
  py_position ts (p - 1) = Some k → ts !! k = Some t → task_ok t →
  let s' := mkTodoList fn (<[k := set_completed true t]> ts) in
  mark_completed p (mkSt (mkTodoList fn ts) w)
  = (Val tt,
     mkSt s' (printed ("Marked task as completed: " +:+ Task_text (set_completed true t))
                (saved_world s' w))).
Proof.
  intros Hpos Hk Hok s'.
  assert (Hstr : Task_str (set_completed true t) = Val (Task_text (set_completed true t)))
    by (by apply Task_str_ok).
  unfold mark_completed, try_except, bind at 1.
  unfold tasks_index, bind at 1, get_tasks. simpl. rewrite Hpos, Hk. simpl.
  unfold bind at 1. unfold tasks_update, bind at 1, get_tasks. simpl. rewrite Hk. simpl.
  unfold bind at 1. rewrite save_tasks_run.
  unfold bind, lift. rewrite Hstr. by rewrite print_run.
Qed.

Lemma delete_task_at fn ts w p k t :
  py_position ts (p - 1) = Some k → ts !! k = Some t → task_ok t →
  let s' := mkTodoList fn (delete k ts) in
  delete_task p (mkSt (mkTodoList fn ts) w)
  = (Val tt,
     mkSt s' (printed ("Deleted task: " +:+ Task_text t) (saved_world s' w))).
Proof.
  intros Hpos Hk Hok s'.
  unfold delete_task, try_except, bind at 1.
  unfold tasks_pop, bind at 1, get_tasks. simpl. rewrite Hpos, Hk. simpl.
  unfold bind at 1. rewrite save_tasks_run.
  unfold bind, lift. rewrite (Task_str_ok t Hok). by rewrite print_run.
Qed.

Lemma mark_completed_outside st p :
  py_position (tasks (self st)) (p - 1) = None →
  mark_completed p st = (Val tt, mkSt (self st) (printed invalid_task_number (world st))).
Proof.
  intros Hpos. destruct st as [[fn ts] w]. simpl in *.
  unfold mark_completed, try_except, bind at 1.
  unfold tasks_index, bind at 1, get_tasks. simpl. by rewrite Hpos.
Qed.

Lemma delete_task_outside st p :
  py_position (tasks (self st)) (p - 1) = None → index_sized (p - 1) = true →
  delete_task p st = (Val tt, mkSt (self st) (printed invalid_task_number (world st))).
Proof.
  intros Hpos Hsz. destruct st as [[fn ts] w]. simpl in *.
  unfold delete_task, try_except, bind at 1.
  unfold tasks_pop, bind at 1, get_tasks. simpl. by rewrite Hpos, Hsz.
Qed.

(** An index too large for [Py_ssize_t] is not refused: the
    [OverflowError] of [list.pop] passes the handler, and nothing has
    changed or been printed when it leaves [delete_task]. *)
Lemma delete_task_overflow st p :
  py_position (tasks (self st)) (p - 1) = None → index_sized (p - 1) = false →
  delete_task p st = (Raise OverflowError, st).
Proof.
  intros Hpos Hsz. destruct st as [[fn ts] w]. simpl in *.
  unfold delete_task, try_except, bind at 1.
  unfold tasks_pop, bind at 1, get_tasks. simpl. by rewrite Hpos, Hsz.
Qed.

(** The three ways [delete_task] can end. *)
Lemma delete_task_cases st p :
  (∃ k t, py_position (tasks (self st)) (p - 1) = Some k ∧ tasks (self st) !! k = Some t)
  ∨ (py_position (tasks (self st)) (p - 1) = None ∧ index_sized (p - 1) = true
     ∧ delete_task p st
       = (Val tt, mkSt (self st) (printed invalid_task_number (world st))))
  ∨ (py_position (tasks (self st)) (p - 1) = None ∧ index_sized (p - 1) = false
     ∧ delete_task p st = (Raise OverflowError, st)).
Proof.
  destruct (py_position (tasks (self st)) (p - 1)) as [k|] eqn:Hpos.
  - left. exists k.
    destruct (lookup_lt_is_Some_2 (tasks (self st)) k) as [t Ht];
      [by eapply py_position_Some | by exists t].
  - right. destruct (index_sized (p - 1)) eqn:Hsz.
    + left. split_and!; [done | done | by apply delete_task_outside].
    + right. split_and!; [done | done | by apply delete_task_overflow].
Qed.

(** Positions above the length, and at or below its negation, are
    refused by [mark_completed]: the message is printed and neither the
    sequence nor any file changes.  [delete_task] refuses them in the
    same way as long as the index converts to [Py_ssize_t]. *)
Lemma positions_refused st p :
  Z.of_nat (length (tasks (self st))) < p ∨ p ≤ - Z.of_nat (length (tasks (self st))) →
  mark_completed p st = (Val tt, mkSt (self st) (printed invalid_task_number (world st)))
  ∧ (index_sized (p - 1) = true →
     delete_task p st = (Val tt, mkSt (self st) (printed invalid_task_number (world st)))).
Proof.
  intros Hp.
  assert (py_position (tasks (self st)) (p - 1) = None)
    by (apply py_position_outside; lia).
  split; [by apply mark_completed_outside | by apply delete_task_outside].
Qed.

(** ** Addressing by position *)

Lemma valid_position (ts : list Task) (p : Z) :
  1 ≤ p ≤ Z.of_nat (length ts) →
  py_position ts (p - 1) = Some (Z.to_nat (p - 1))
  ∧ ∃ t, ts !! Z.to_nat (p - 1) = Some t.
Proof.
  intros Hp. split; [apply py_position_front; lia |].
  apply lookup_lt_is_Some_2. lia.
Qed.

(** C1: position 0 is not refused.  On every store whose last task is
    [t], [mark_completed 0] marks [t] completed and [delete_task 0]
    removes it; both save the changed sequence and print the success
    line, not the message for an invalid task number. *)
Theorem position_zero_reaches_last_task :
  ∀ (fn : string) (ts : list Task) (t : Task) (w : World),
    task_ok t →
    let st := mkSt (mkTodoList fn (ts ++ [t])) w in
    let marked := mkTodoList fn (ts ++ [set_completed true t]) in
    let removed := mkTodoList fn ts in
    mark_completed 0 st
    = (Val tt,
       mkSt marked
         (printed ("Marked task as completed: " +:+ Task_text (set_completed true t))
            (saved_world marked w)))
    ∧ delete_task 0 st
      = (Val tt,
         mkSt removed
           (printed ("Deleted task: " +:+ Task_text t) (saved_world removed w))).
Proof.
  intros fn ts t w Hok st marked removed.
  assert (Hpos : py_position (ts ++ [t]) (0 - 1) = Some (length ts)).
  { rewrite py_position_back by (rewrite length_app; simpl; lia).
    f_equal. rewrite length_app. simpl. lia. }
  assert (Hk : (ts ++ [t])%list !! length ts = Some t) by (by apply list_lookup_middle).
  split.
  - unfold st. rewrite (mark_completed_at fn (ts ++ [t]) w 0 (length ts) t) by done.
    replace (<[length ts := set_completed true t]> (ts ++ [t])%list)
      with (ts ++ [set_completed true t])%list; [done |].
    rewrite insert_app_r_alt by lia. by rewrite Nat.sub_diag.
  - unfold st. rewrite (delete_task_at fn (ts ++ [t]) w 0 (length ts) t) by done.
    rewrite delete_middle. by rewrite app_nil_r.
Qed.

Lemma position_zero_reaches_last_task_witness :
  tasks (self (snd (mark_completed 0
     (mkSt (mkTodoList "tasks.json" [milk; bread]) quiet_world))))
  = [milk; set_completed true bread]
  ∧ tasks (self (snd (delete_task 0
       (mkSt (mkTodoList "tasks.json" [milk; bread]) quiet_world))))
    = [milk].
Proof.
  assert (Hok : task_ok bread) by (unfold task_ok; apply elem_of_123; simpl; lia).
  destruct (position_zero_reaches_last_task "tasks.json" [milk] bread quiet_world Hok)
    as [Hmark Hdel].
  simpl in Hmark, Hdel. by rewrite Hmark, Hdel.
Defined.

(** C7: on a store of [N] valid tasks, [delete_task p] with [p] in
    [1..N] returns normally, saves, and leaves a sequence of [N-1]
    tasks in which every position before [p] names the task it named
    before and every position [q-1] with [p < q ≤ N] names the task
    that [q] named before. *)
Theorem delete_task_shifts_later_positions :
  ∀ (st : St) (p : Z),
    store_ok st →
    1 ≤ p ≤ Z.of_nat (length (tasks (self st))) →
    let ts := tasks (self st) in
    let r := delete_task p st in
    let ts' := tasks (self (snd r)) in
    fst r = Val tt
    ∧ filename (self (snd r)) = filename (self st)
    ∧ Z.of_nat (length ts') = Z.of_nat (length ts) - 1
    ∧ (∀ q, 1 ≤ q < p → task_at ts' q = task_at ts q)
    ∧ (∀ q, p < q ≤ Z.of_nat (length ts) → task_at ts' (q - 1) = task_at ts q)
    ∧ (∃ removed, task_at ts p = Some removed
        ∧ world (snd r)
          = printed ("Deleted task: " +:+ Task_text removed)
              (saved_world (self (snd r)) (world st))).
Proof.
  intros [[fn ts0] w] p Hok Hp. simpl in *.
  destruct (valid_position ts0 p Hp) as [Hpos [t Hk]].
  assert (Ht : task_ok t) by (eapply Forall_lookup_1; [apply Hok | apply Hk]).
  rewrite (delete_task_at fn ts0 w p _ t Hpos Hk Ht). simpl.
  split; [done |]. split; [done |]. split.
  { rewrite length_delete by eauto.
    apply lookup_lt_Some in Hk. lia. }
  split.
  { intros q Hq. unfold task_at. rewrite bool_decide_eq_true_2 by lia.
    apply list_lookup_delete_lt. lia. }
  split.
  { intros q Hq. unfold task_at. rewrite !bool_decide_eq_true_2 by lia.
    rewrite list_lookup_delete_ge by lia. f_equal. lia. }
  exists t. split; [| done].
  unfold task_at. by rewrite bool_decide_eq_true_2 by lia.
Qed.

Lemma delete_task_shifts_later_positions_witness :
  task_at (tasks (self (snd (delete_task 1
     (mkSt (mkTodoList "tasks.json" [milk; bread]) quiet_world))))) 1
  = Some bread.
Proof.
  assert (Hok : store_ok (mkSt (mkTodoList "tasks.json" [milk; bread]) quiet_world)).
  { unfold store_ok. simpl. repeat constructor; unfold task_ok; apply elem_of_123;
      simpl; lia. }
  assert (Hp : 1 ≤ 1 ≤ Z.of_nat (length (tasks (self
                 (mkSt (mkTodoList "tasks.json" [milk; bread]) quiet_world)))))
    by (simpl; lia).
  destruct (delete_task_shifts_later_positions _ 1 Hok Hp)
    as (_ & _ & _ & _ & Hshift & _).
  assert (H2 : 1 < 2 ≤ Z.of_nat (length (tasks (self
                 (mkSt (mkTodoList "tasks.json" [milk; bread]) quiet_world)))))
    by (simpl; lia).
  exact (Hshift 2 H2).
Defined.

(** C8: on a store of valid tasks, [mark_completed p] with [p] in
    [1..N] returns normally twice in a row; the task at [p] is completed
    after the first call and after the second, the second call leaves
    the sequence as the first left it and prints the success line. *)
Theorem mark_completed_idempotent :
  ∀ (st : St) (p : Z),
    store_ok st →
    1 ≤ p ≤ Z.of_nat (length (tasks (self st))) →
    let r1 := mark_completed p st in
    let r2 := mark_completed p (snd r1) in
    fst r1 = Val tt
    ∧ fst r2 = Val tt
    ∧ completed <$> task_at (tasks (self (snd r1))) p = Some true
    ∧ completed <$> task_at (tasks (self (snd r2))) p = Some true
    ∧ self (snd r2) = self (snd r1)
    ∧ (∃ t, task_at (tasks (self (snd r1))) p = Some t
        ∧ world (snd r2)
          = printed ("Marked task as completed: " +:+ Task_text t)
              (saved_world (self (snd r1)) (world (snd r1)))).
Proof.
  intros [[fn ts] w] p Hok Hp. unfold store_ok in Hok. simpl in *.
  destruct (valid_position ts p Hp) as [Hpos [t Hk]].
  set (k := Z.to_nat (p - 1)) in *.
  assert (Ht : task_ok t) by (eapply Forall_lookup_1; [apply Hok | apply Hk]).
  assert (Hlt : (k < length ts)%nat) by (by eapply lookup_lt_Some).
  rewrite (mark_completed_at fn ts w p k t Hpos Hk Ht). simpl.
  set (t1 := set_completed true t).
  set (ts1 := <[k := t1]> ts).
  assert (Hk1 : ts1 !! k = Some t1) by (by apply list_lookup_insert_eq).
  assert (Hpos1 : py_position ts1 (p - 1) = Some k).
  { unfold ts1. apply py_position_front. rewrite length_insert. lia. }
  assert (Ht1 : task_ok t1) by done.
  rewrite (mark_completed_at fn ts1 _ p k t1 Hpos1 Hk1 Ht1). simpl.
  assert (Hsame : <[k := set_completed true t1]> ts1 = ts1).
  { apply list_insert_id. by rewrite Hk1. }
  rewrite Hsame.
  assert (Hat : task_at ts1 p = Some t1).
  { unfold task_at. by rewrite bool_decide_eq_true_2 by lia. }
  rewrite Hat. repeat split; try done.
  exists t1. split; done.
Qed.

Lemma mark_completed_idempotent_witness :
  completed <$> task_at (tasks (self (snd (mark_completed 2 (snd (mark_completed 2
     (mkSt (mkTodoList "tasks.json" [milk; bread]) quiet_world))))))) 2
  = Some true.
Proof.
  assert (Hok : store_ok (mkSt (mkTodoList "tasks.json" [milk; bread]) quiet_world)).
  { unfold store_ok. simpl. repeat constructor; unfold task_ok; apply elem_of_123;
      simpl; lia. }
  assert (Hp : 1 ≤ 2 ≤ Z.of_nat (length (tasks (self
                 (mkSt (mkTodoList "tasks.json" [milk; bread]) quiet_world)))))
    by (simpl; lia).
  destruct (mark_completed_idempotent _ 2 Hok Hp) as (_ & _ & _ & Hdone & _).
  exact Hdone.
Defined.

(** ** Loading *)

Lemma load_record_run data fn ts w :
  load_record data (mkSt (mkTodoList fn ts) w)
  = match record_task (now w) data with
    | Val t => (Val tt, mkSt (mkTodoList fn (ts ++ [t])) w)
    | Raise e => (Raise e, mkSt (mkTodoList fn ts) w)
    | Dynamic => (Dynamic, mkSt (mkTodoList fn ts) w)
    end.
Proof.
  unfold load_record, record_task, bind, lift, get_world, get_tasks, set_tasks.
  simpl. repeat step_res.
Qed.

Lemma load_loop_run items new fn ts w :
  Forall2 (λ data t, record_task (now w) data = Val t) items new →
  load_loop items (mkSt (mkTodoList fn ts) w)
  = (Val tt, mkSt (mkTodoList fn (ts ++ new)) w).
Proof.
  intros Hall. revert ts.
  induction Hall as [| data t items new Hdata _ IH]; intros ts; simpl.
  - by rewrite app_nil_r.
  - unfold bind. rewrite load_record_run, Hdata, IH.
    by rewrite <- app_assoc.
Qed.

Lemma load_loop_stops items new data rest fn ts w r :
  Forall2 (λ data t, record_task (now w) data = Val t) items new →
  record_task (now w) data = r → (∀ t, r ≠ Val t) →
  load_loop (items ++ data :: rest) (mkSt (mkTodoList fn ts) w)
  = (match r with Raise e => Raise e | _ => Dynamic end,
     mkSt (mkTodoList fn (ts ++ new)) w).
Proof.
  intros Hall Hdata Hr. revert ts.
  induction Hall as [| data' t items new Hdata' _ IH]; intros ts; simpl.
  - unfold bind. rewrite load_record_run, Hdata, app_nil_r.
    destruct r as [t | e |]; [by destruct (Hr t) | done | done].
  - unfold bind. rewrite load_record_run, Hdata', IH.
    by rewrite <- app_assoc.
Qed.

(** [load_tasks] on a readable file that holds a JSON list: the sequence
    is emptied and the loop runs over the items. *)
Lemma load_tasks_list fn ts w items :
  files w !! fn = Some (JsonText (JList items)) →
  unreadable w !! fn = None →
  load_tasks (mkSt (mkTodoList fn ts) w)
  = try_except (load_loop items)
      (λ e, match e with
            | IOError msg | JSONDecodeError msg =>
                Some (print ("Error loading tasks: " +:+ msg))
            | _ => None
            end) (mkSt (mkTodoList fn []) w).
Proof.
  intros Hfile Hread.
  unfold load_tasks, bind at 1. unfold get_filename. simpl.
  unfold bind at 1. unfold path_exists, bind at 1, get_world, ret. simpl.
  rewrite Hfile. rewrite bool_decide_eq_true_2 by eauto. simpl.
  unfold try_except, bind at 1. unfold read_json, bind at 1, get_world. simpl.
  rewrite Hread, Hfile. reflexivity.
Qed.

(** A missing file is not an error: nothing is read and nothing printed. *)
Lemma load_tasks_no_file st :
  files (world st) !! filename (self st) = None →
  load_tasks st = (Val tt, st).
Proof.
  intros Hfile. destruct st as [[fn ts] w]. simpl in *.
  unfold load_tasks, bind at 1. unfold get_filename. simpl.
  unfold bind at 1. unfold path_exists, bind at 1, get_world, ret. simpl.
  rewrite Hfile. rewrite bool_decide_eq_false_2 by (intros [? ?]; done). done.
Qed.

(** Text that is not JSON, and a file that cannot be opened: the error
    line is printed and the sequence is the one the store already had. *)
Lemma load_tasks_bad_text st msg :
  files (world st) !! filename (self st) = Some (BadText msg) →
  unreadable (world st) !! filename (self st) = None →
  load_tasks st = (Val tt, mkSt (self st) (printed ("Error loading tasks: " +:+ msg) (world st))).
Proof.
  intros Hfile Hread. destruct st as [[fn ts] w]. simpl in *.
  unfold load_tasks, bind at 1. unfold get_filename. simpl.
  unfold bind at 1. unfold path_exists, bind at 1, get_world, ret. simpl.
  rewrite Hfile. rewrite bool_decide_eq_true_2 by eauto. simpl.
  unfold try_except, bind at 1. unfold read_json, bind at 1, get_world. simpl.
  rewrite Hread, Hfile. reflexivity.
Qed.

Lemma load_tasks_unreadable st msg :
  is_Some (files (world st) !! filename (self st)) →
  unreadable (world st) !! filename (self st) = Some msg →
  load_tasks st = (Val tt, mkSt (self st) (printed ("Error loading tasks: " +:+ msg) (world st))).
Proof.
  intros Hfile Hread. destruct st as [[fn ts] w]. simpl in *.
  unfold load_tasks, bind at 1. unfold get_filename. simpl.
  unfold bind at 1. unfold path_exists, bind at 1, get_world, ret. simpl.
  rewrite bool_decide_eq_true_2 by done. simpl.
  unfold try_except, bind at 1. unfold read_json, bind at 1, get_world. simpl.
  rewrite Hread. reflexivity.
Qed.

Lemma record_task_of_task clock t :
  task_ok t → record_task clock (task_record t) = Val t.
Proof.
  intros Hok. unfold record_task, task_record. simpl.
  destruct (due_date t) as [d |] eqn:Hdue; simpl; f_equal;
    rewrite <- Hdue; by apply Task_init_id.
Qed.

Lemma record_tasks_of_tasks clock ts :
  Forall task_ok ts →
  Forall2 (λ data t, record_task clock data = Val t) (map task_record ts) ts.
Proof.
  induction 1 as [| t ts Hok _ IH]; simpl; constructor;
    [by apply record_task_of_task | done].
Qed.

(** C2: when the file can be written and read, saving a store of valid
    tasks and then constructing a store on the same path, at whatever
    time, yields the same sequence: same tasks, field for field and in
    the same order, [created_at] included. *)
Theorem save_then_load_restores_tasks :
  ∀ (s : TodoList) (w : World) (later : string),
    Forall task_ok (tasks s) →
    unwritable w !! filename s = None →
    unreadable w !! filename s = None →
    let saved := save_tasks (mkSt s w) in
    let w' := with_now later (world (snd saved)) in
    fst saved = Val tt
    ∧ self (snd saved) = s
    ∧ TodoList_init (filename s) w' = (Val tt, mkSt s w').
Proof.
  intros [fn ts] w later Hok Hwrite Hread. simpl in *.
  rewrite save_tasks_run. simpl.
  split; [done |]. split; [done |].
  unfold TodoList_init, saved_world. simpl. rewrite Hwrite.
  rewrite (load_tasks_list fn [] _ (map task_record ts)).
  - unfold try_except.
    rewrite (load_loop_run (map task_record ts) ts); [done |].
    by apply record_tasks_of_tasks.
  - simpl. by rewrite lookup_insert_eq.
  - done.
Qed.

Lemma save_then_load_restores_tasks_witness :
  TodoList_init "tasks.json"
    (with_now "2031-05-06 07:08"
       (world (snd (save_tasks (mkSt (mkTodoList "tasks.json" [milk; bread]) quiet_world)))))
  = (Val tt,
     mkSt (mkTodoList "tasks.json" [milk; bread])
       (with_now "2031-05-06 07:08"
          (world (snd (save_tasks (mkSt (mkTodoList "tasks.json" [milk; bread]) quiet_world)))))).
Proof.
  assert (Hok : Forall task_ok (tasks (mkTodoList "tasks.json" [milk; bread]))).
  { simpl. repeat constructor; unfold task_ok; apply elem_of_123; simpl; lia. }
  assert (Hwrite : unwritable quiet_world !! filename (mkTodoList "tasks.json" [milk; bread])
                   = None) by reflexivity.
  assert (Hread : unreadable quiet_world !! filename (mkTodoList "tasks.json" [milk; bread])
                  = None) by reflexivity.
  destruct (save_then_load_restores_tasks _ quiet_world "2031-05-06 07:08" Hok Hwrite Hread)
    as (_ & _ & Hload).
  exact Hload.
Defined.

(** C4: a record without a [description] ends the load with a
    [KeyError] that no handler of [load_tasks] catches: nothing is
    printed, and the store keeps the tasks of the records read before
    it. *)
Theorem load_stops_at_incomplete_record :
  ∀ (fn : string) (w : World) (good : list json) (loaded : list Task)
    (fields : list (string * json)) (rest : list json),
    files w !! fn = Some (JsonText (JList (good ++ JObj fields :: rest))) →
    unreadable w !! fn = None →
    Forall2 (λ data t, record_task (now w) data = Val t) good loaded →
    assoc fields "description" = None →
    TodoList_init fn w
    = (Raise (KeyError (JStr "description")), mkSt (mkTodoList fn loaded) w).
Proof.
  intros fn w good loaded fields rest Hfile Hread Hgood Hmiss.
  unfold TodoList_init. rewrite (load_tasks_list fn [] w _ Hfile Hread).
  unfold try_except.
  rewrite (load_loop_stops good loaded (JObj fields) rest fn [] w
             (Raise (KeyError (JStr "description"))) Hgood); [done | | done].
  unfold record_task. simpl. by rewrite Hmiss.
Qed.

Lemma load_stops_at_incomplete_record_witness :
  TodoList_init "tasks.json" half_written
  = (Raise (KeyError (JStr "description")),
     mkSt (mkTodoList "tasks.json" [milk]) half_written).
Proof.
  apply (load_stops_at_incomplete_record "tasks.json" half_written
           [task_record milk] [milk] [("due_date", JNull)] []).
  - reflexivity.
  - reflexivity.
  - repeat constructor.
  - reflexivity.
Defined.

Lemma record_task_well_formed clock fields d dd p c :
  assoc fields "description" = Some (JStr d) →
  assoc fields "due_date" = Some (json_of_due_date dd) →
  assoc fields "priority" = Some (JInt p) →
  assoc fields "completed" = Some (JBool c) →
  (assoc fields "created_at" = None ∨ ∃ s, assoc fields "created_at" = Some (JStr s)) →
  record_task clock (JObj fields)
  = Val (set_created_at
           (match assoc fields "created_at" with Some (JStr s) => s | _ => "Unknown" end)
           (Task_init clock d dd p c)).
Proof.
  intros Hd Hdd Hp Hc Hca. unfold record_task. simpl.
  rewrite Hd, Hdd, Hp, Hc. simpl.
  destruct dd as [s |]; simpl;
    destruct Hca as [-> | [s' ->]]; reflexivity.
Qed.

Lemma well_formed_loads clock items :
  Forall well_formed items →
  ∃ ts, Forall2 (λ data t, record_task clock data = Val t) items ts.
Proof.
  induction 1 as [| data items Hdata _ [ts IH]]; [by exists [] |].
  destruct Hdata as (fields & d & v_due & p & c & -> & Hd & Hdd & Hv & Hp & Hc & Hca).
  assert (∃ dd, v_due = json_of_due_date dd) as [dd ->].
  { destruct Hv as [-> | [s ->]]; [by exists None | by exists (Some s)]. }
  eexists (_ :: ts). constructor; [| done].
  by apply (record_task_well_formed clock fields d dd p c).
Qed.

(** C10: loading a readable file that holds a list of well-formed
    records returns normally and loads one task per record, in order; a
    record without [created_at] gives a task whose [created_at] is
    ['Unknown'] and whose other fields are the record's (the priority
    as the constructor normalises it). *)
Theorem load_defaults_missing_created_at :
  ∀ (fn : string) (w : World) (items : list json),
    files w !! fn = Some (JsonText (JList items)) →
    unreadable w !! fn = None →
    Forall well_formed items →
    ∃ ts : list Task,
      TodoList_init fn w = (Val tt, mkSt (mkTodoList fn ts) w)
      ∧ length ts = length items
      ∧ ∀ (i : nat) (fields : list (string * json)),
          items !! i = Some (JObj fields) →
          assoc fields "created_at" = None →
          ∃ t p,
            ts !! i = Some t
            ∧ created_at t = "Unknown"
            ∧ assoc fields "description" = Some (JStr (description t))
            ∧ assoc fields "due_date" = Some (json_of_due_date (due_date t))
            ∧ assoc fields "completed" = Some (JBool (completed t))
            ∧ assoc fields "priority" = Some (JInt p)
            ∧ priority t = if bool_decide (p ∈ [1; 2; 3]) then p else 2.
Proof.
  intros fn w items Hfile Hread Hall.
  destruct (well_formed_loads (now w) items Hall) as [ts Hts].
  exists ts. split; [| split].
  - unfold TodoList_init. rewrite (load_tasks_list fn [] w items Hfile Hread).
    unfold try_except. by rewrite (load_loop_run items ts).
  - symmetry. by eapply Forall2_length.
  - intros i fields Hi Hnone.
    destruct (Forall2_lookup_l _ _ _ _ _ Hts Hi) as (t & Ht & Hrec).
    pose proof (Forall_lookup_1 _ _ _ _ Hall Hi) as Hwf.
    destruct Hwf as (fields' & d & v_due & p & c & Heq & Hd & Hdd & Hv & Hp & Hc & Hca).
    injection Heq as <-.
    assert (∃ dd, v_due = json_of_due_date dd) as [dd ->].
    { destruct Hv as [-> | [s ->]]; [by exists None | by exists (Some s)]. }
    rewrite (record_task_well_formed (now w) fields d dd p c Hd Hdd Hp Hc Hca) in Hrec.
    rewrite Hnone in Hrec. injection Hrec as <-.
    destruct (Task_init_fields (now w) d dd p c) as (Hfd & Hfdd & Hfc & _).
    exists (set_created_at "Unknown" (Task_init (now w) d dd p c)), p.
    simpl. rewrite Hfd, Hfdd, Hfc, Task_init_priority. done.
Qed.

Lemma load_defaults_missing_created_at_witness :
  ∃ ts, TodoList_init "tasks.json" old_format
        = (Val tt, mkSt (mkTodoList "tasks.json" ts) old_format)
        ∧ created_at <$> ts !! 0%nat = Some "Unknown".
Proof.
  assert (Hwf : Forall well_formed
                  [JObj [("description", JStr "Buy milk"); ("due_date", JNull);
                         ("priority", JInt 1); ("completed", JBool true)]]).
  { repeat constructor.
    eexists _, "Buy milk", JNull, 1, true. repeat split; try reflexivity; auto. }
  destruct (load_defaults_missing_created_at "tasks.json" old_format _
              eq_refl eq_refl Hwf) as (ts & Hload & _ & Hrecords).
  exists ts. split; [exact Hload |].
  destruct (Hrecords 0%nat _ eq_refl eq_refl) as (t & p & Ht & Hca & _).
  rewrite Ht. simpl. by rewrite Hca.
Defined.

(** ** Adding *)

Lemma add_task_run fn ts w d kw :
  let t := Task_call (now w) d kw in
  let s' := mkTodoList fn (ts ++ [t]) in
  add_task d kw (mkSt (mkTodoList fn ts) w)
  = (Val tt, mkSt s' (printed ("Added task: " +:+ Task_text t) (saved_world s' w))).
Proof.
  intros t s'.
  assert (Hstr : Task_str t = Val (Task_text t))
    by (apply Task_str_ok, Task_init_ok).
  unfold add_task, bind at 1. unfold Task_new, bind at 1, get_world, ret. simpl.
  unfold bind at 1. unfold get_tasks. simpl.
  unfold bind at 1. unfold set_tasks. simpl.
  unfold bind at 1. rewrite save_tasks_run.
  unfold bind, lift. fold t. rewrite Hstr. by rewrite print_run.
Qed.

(** C5, as stated, fails: [add_task] has no check on the description.
    With the empty description on the empty store it returns normally,
    the store holds a blank task and the file has been written. *)
Lemma add_task_accepts_empty_description :
  ¬ rejects_empty_description empty_store no_kwargs
  ∧ fst (add_task EmptyString no_kwargs empty_store) = Val tt
  ∧ tasks (self (snd (add_task EmptyString no_kwargs empty_store))) = [blank]
  ∧ files (world (snd (add_task EmptyString no_kwargs empty_store))) !! "tasks.json"
    = Some (JsonText (JList [task_record blank])).
Proof.
  split; [| by vm_compute].
  intros [e He]. vm_compute in He. discriminate He.
Qed.

(** C5, amended: for every description, empty or not, [add_task] with
    an optional due date and priority returns normally and appends
    exactly one task to the end of the sequence: not completed, stamped
    with the current time, with the description and due date given, and
    with the priority given when that is 1, 2 or 3, and 2 for every
    other integer and when none is given.  Then it saves: the world it
    leaves is the one [save_tasks] leaves for the longer sequence,
    followed by the line reporting the task. *)
Theorem add_task_appends_and_saves :
  ∀ (st : St) (d : string) (dd : option string) (pr : option Z),
    let r := add_task d (mkKwargs dd pr None) st in
    let p := match pr with
             | Some n => if bool_decide (n ∈ [1; 2; 3]) then n else 2
             | None => 2
             end in
    let t := mkTask d dd p false (now (world st)) in
    fst r = Val tt
    ∧ tasks (self (snd r)) = (tasks (self st) ++ [t])%list
    ∧ filename (self (snd r)) = filename (self st)
    ∧ description t = d
    ∧ due_date t = dd
    ∧ completed t = false
    ∧ task_ok t
    ∧ created_at t = now (world st)
    ∧ world (snd r)
      = printed ("Added task: " +:+ Task_text t)
          (saved_world (self (snd r)) (world st)).
Proof.
  intros [[fn ts] w] d dd pr r p t. unfold r.
  rewrite add_task_run. simpl.
  assert (Ht : Task_call (now w) d (mkKwargs dd pr None) = t).
  { unfold Task_call, Task_init, t, p. simpl.
    destruct pr as [n |]; simpl; [by case_bool_decide | done]. }
  rewrite Ht. split_and!; try done.
  rewrite <- Ht. apply Task_init_ok.
Qed.

(** ** Viewing *)

Lemma with_stdout_same w : with_stdout (stdout w ++ []) w = w.
Proof. destruct w. unfold with_stdout. simpl. by rewrite app_nil_r. Qed.

Lemma with_stdout_printed line rest w :
  with_stdout (stdout (printed line w) ++ rest) (printed line w)
  = with_stdout (stdout w ++ line :: rest) w.
Proof. unfold printed, with_stdout. simpl. by rewrite <- app_assoc. Qed.

Lemma view_loop_skips show_completed priority_filter t :
  priority_filter ≠ Some 0 →
  List_keeps show_completed priority_filter t
  = negb (completed t && negb show_completed)
    && negb (filter_truthy priority_filter
             && priority_differs (priority t) priority_filter).
Proof.
  intros Hpf. unfold List_keeps. f_equal.
  destruct priority_filter as [n |]; simpl; [| done].
  rewrite (bool_decide_eq_false_2 (n = 0)) by (intros ->; by apply Hpf). simpl.
  by rewrite negb_involutive.
Qed.

Lemma view_loop_run show_completed priority_filter i ts s w :
  priority_filter ≠ Some 0 →
  Forall task_ok ts →
  view_loop show_completed priority_filter i ts (mkSt s w)
  = (Val tt,
     mkSt s (with_stdout
               (stdout w
                ++ (row <$> filter (λ it, List_keeps show_completed priority_filter it.2 = true)
                              (enumerate_from i ts))) w)).
Proof.
  intros Hpf Hok. revert i w.
  induction Hok as [| t ts Ht _ IH]; intros i w; simpl.
  - by rewrite with_stdout_same.
  - unfold bind at 1.
    pose proof (view_loop_skips show_completed priority_filter t Hpf) as Hkeep.
    destruct (completed t && negb show_completed) eqn:Hdone; simpl in Hkeep.
    { unfold ret. rewrite IH. by rewrite filter_cons_False by (simpl; congruence). }
    destruct (filter_truthy priority_filter
              && priority_differs (priority t) priority_filter) eqn:Hother;
      simpl in Hkeep.
    { unfold ret. rewrite IH. by rewrite filter_cons_False by (simpl; congruence). }
    unfold bind, lift. rewrite (Task_str_ok t Ht), print_run, IH.
    rewrite filter_cons_True by done.
    by rewrite with_stdout_printed.
Qed.

Lemma elem_of_enumerate_from i ts q t :
  (q, t) ∈ enumerate_from i ts ↔ i ≤ q ∧ ts !! Z.to_nat (q - i) = Some t.
Proof.
  revert i. induction ts as [| t' ts IH]; intros i; simpl.
  - rewrite elem_of_nil. split; [done | by intros [_ ?]].
  - rewrite elem_of_cons, IH. split.
    + intros [[= -> ->] | [Hq Ht]].
      * split; [lia |]. by rewrite Z.sub_diag.
      * split; [lia |].
        replace (Z.to_nat (q - i)) with (S (Z.to_nat (q - (i + 1)))) by lia. done.
    + intros [Hq Ht]. destruct (decide (q = i)) as [-> | Hne].
      * left. rewrite Z.sub_diag in Ht. simpl in Ht. congruence.
      * right. split; [lia |].
        replace (Z.to_nat (q - i)) with (S (Z.to_nat (q - (i + 1)))) in Ht by lia. done.
Qed.

Lemma enumerate_from_ascending (P : Z * Task → Prop) `{!∀ it, Decision (P it)} i ts :
  StronglySorted Z.lt ((filter P (enumerate_from i ts)).*1).
Proof.
  revert i. induction ts as [| t ts IH]; intros i; simpl; [constructor |].
  assert (Hlater : Forall (Z.lt i) ((filter P (enumerate_from (i + 1) ts)).*1)).
  { apply Forall_fmap, Forall_forall. intros [q t'] Hin.
    apply list_elem_of_filter in Hin as [_ Hin].
    apply elem_of_enumerate_from in Hin. simpl. lia. }
  destruct (decide (P (i, t))).
  - rewrite filter_cons_True by done. simpl. by constructor.
  - rewrite filter_cons_False by done. apply IH.
Qed.

(** C6: on a store of valid tasks, with a filter that is absent or a
    priority, [view_tasks] returns normally, changes neither the store
    nor any file, and prints, between header and footer, one line per
    listed pair; the listed pairs are exactly the pairs of a position of
    the whole sequence and the task there that pass the filter, in
    ascending order of position. *)
Theorem view_tasks_lists_in_order :
  ∀ (st : St) (show_completed : bool) (priority_filter : option Z),
    store_ok st →
    priority_filter ≠ Some 0 →
    let ts := tasks (self st) in
    let listed := List_spec show_completed priority_filter ts in
    view_tasks show_completed priority_filter st
    = (Val tt,
       mkSt (self st)
         (with_stdout
            (stdout (world st)
             ++ view_header
                :: match ts with
                   | [] => [view_empty]
                   | _ => (row <$> listed) ++ [view_footer]
                   end)
            (world st)))
    ∧ (∀ q t, (q, t) ∈ listed
              ↔ task_at ts q = Some t
                ∧ List_keeps show_completed priority_filter t = true)
    ∧ StronglySorted Z.lt (listed.*1).
Proof.
  intros [s w] show_completed priority_filter Hok Hpf ts listed.
  unfold store_ok in Hok. simpl in *. split; [| split].
  - subst listed ts.
    unfold view_tasks, bind at 1. rewrite print_run.
    unfold bind at 1. unfold get_tasks. simpl.
    destruct (tasks s) as [| t ts'] eqn:Hts.
    + rewrite print_run. unfold with_stdout, printed. simpl.
      by rewrite <- app_assoc.
    + unfold bind.
      rewrite view_loop_run by done. rewrite print_run.
      unfold List_spec, with_stdout, printed. simpl.
      by rewrite <- !app_assoc.
  - intros q t. unfold listed, List_spec.
    rewrite list_elem_of_filter, elem_of_enumerate_from. simpl.
    unfold task_at. case_bool_decide; [tauto |].
    split; [intros (_ & ? & _); lia | by intros [? _]].
  - apply enumerate_from_ascending.
Qed.

Lemma view_tasks_lists_in_order_witness :
  List_spec false (Some 1) [done_milk; bread; call_bank] = [(3, call_bank)]
  ∧ stdout (world (snd (view_tasks false (Some 1)
       (mkSt (mkTodoList "tasks.json" [done_milk; bread; call_bank]) quiet_world))))
    = [view_header; "3. [ ] Call bank (Priority: High)"; view_footer].
Proof.
  assert (Hok : store_ok (mkSt (mkTodoList "tasks.json" [done_milk; bread; call_bank])
                            quiet_world)).
  { unfold store_ok. simpl. repeat constructor; unfold task_ok; apply elem_of_123;
      simpl; lia. }
  assert (Hpf : Some 1 ≠ Some 0) by discriminate.
  destruct (view_tasks_lists_in_order _ false (Some 1) Hok Hpf) as (Hrun & _ & _).
  split; [reflexivity |]. rewrite Hrun. reflexivity.
Defined.

(** ** The stores the program reaches *)

Lemma record_task_ok clock data t : record_task clock data = Val t → task_ok t.
Proof.
  unfold record_task.
  repeat match goal with
         | |- rbind ?r _ = Val _ → _ => destruct r; simpl; try discriminate
         end.
  intros [= <-]. unfold task_ok. simpl. apply Task_init_ok.
Qed.

Lemma load_loop_keeps_ok items fn ts w :
  Forall task_ok ts →
  store_ok (snd (load_loop items (mkSt (mkTodoList fn ts) w))).
Proof.
  revert ts. induction items as [| data items IH]; intros ts Hok; simpl; [done |].
  unfold bind. rewrite load_record_run.
  destruct (record_task (now w) data) as [t | e |] eqn:Hdata; simpl; try done.
  apply IH, Forall_app. split; [done |].
  constructor; [by eapply record_task_ok | done].
Qed.

(** Whatever the file holds, the store the constructor leaves has valid
    tasks only: also when loading ends early. *)
Lemma TodoList_init_ok fn w : store_ok (snd (TodoList_init fn w)).
Proof.
  unfold TodoList_init, load_tasks, bind at 1. unfold get_filename. simpl.
  unfold bind at 1. unfold path_exists, bind at 1, get_world, ret. simpl.
  case_bool_decide; simpl; [| by constructor].
  unfold try_except, bind at 1. unfold read_json, bind at 1, get_world. simpl.
  destruct (unreadable w !! fn); simpl; [by constructor |].
  destruct (files w !! fn) as [[doc | msg] |]; simpl; try by constructor.
  unfold bind at 1. unfold set_tasks. simpl.
  unfold bind at 1. unfold lift.
  destruct (py_iter doc) as [items | e |]; simpl; try by constructor.
  - pose proof (load_loop_keeps_ok items fn [] w (Forall_nil_2 _)) as Hok.
    destruct (load_loop items _) as [[[] | e |] st']; simpl in *; try done.
    destruct e; simpl; done.
  - destruct e; simpl; by constructor.
Qed.

Lemma add_task_ok st d kw : store_ok st → store_ok (snd (add_task d kw st)).
Proof.
  destruct st as [[fn ts] w]. unfold store_ok. simpl. intros Hok.
  rewrite add_task_run. simpl. apply Forall_app. split; [done |].
  constructor; [apply Task_init_ok | done].
Qed.

Lemma mark_completed_ok st p : store_ok st → store_ok (snd (mark_completed p st)).
Proof.
  destruct st as [[fn ts] w]. unfold store_ok. simpl. intros Hok.
  destruct (py_position ts (p - 1)) as [k |] eqn:Hpos.
  - destruct (lookup_lt_is_Some_2 ts k (py_position_Some _ _ _ Hpos)) as [t Hk].
    assert (Ht : task_ok t) by (by eapply Forall_lookup_1).
    rewrite (mark_completed_at fn ts w p k t Hpos Hk Ht). simpl.
    by apply Forall_insert.
  - by rewrite mark_completed_outside.
Qed.

Lemma delete_task_ok st p : store_ok st → store_ok (snd (delete_task p st)).
Proof.
  destruct st as [[fn ts] w]. unfold store_ok. simpl. intros Hok.
  destruct (py_position ts (p - 1)) as [k |] eqn:Hpos.
  - destruct (lookup_lt_is_Some_2 ts k (py_position_Some _ _ _ Hpos)) as [t Hk].
    assert (Ht : task_ok t) by (by eapply Forall_lookup_1).
    rewrite (delete_task_at fn ts w p k t Hpos Hk Ht). simpl.
    by apply Forall_delete.
  - destruct (index_sized (p - 1)) eqn:Hsz;
      [by rewrite delete_task_outside | by rewrite delete_task_overflow].
Qed.

(** ** The session of the specification's example *)

Example session_run :
  let r := session empty_store in
  fst r = Val tt
  ∧ tasks (self (snd r)) = []
  ∧ files (world (snd r)) !! "tasks.json" = Some (JsonText (JList []))
  ∧ stdout (world (snd r))
    = ["Added task: [ ] Buy milk (Priority: High, Due: 2024-01-10)";
       view_header;
       "1. [ ] Buy milk (Priority: High, Due: 2024-01-10)";
       view_footer;
       "Marked task as completed: [✓] Buy milk (Priority: High, Due: 2024-01-10)";
       view_header;
       "1. [✓] Buy milk (Priority: High, Due: 2024-01-10)";
       view_footer;
       "Deleted task: [✓] Buy milk (Priority: High, Due: 2024-01-10)"].
Proof. by vm_compute. Qed.

(** * Further properties of the store *)

(** ** Positions, in full *)

Lemma mark_completed_position st p q :
  py_position (tasks (self st)) (p - 1) = py_position (tasks (self st)) (q - 1) →
  mark_completed p st = mark_completed q st.
Proof.
  intros Hpos. destruct st as [[fn ts] w]. simpl in *.
  unfold mark_completed, try_except, bind at 1 3.
  unfold tasks_index, bind at 1 3, get_tasks. simpl. by rewrite Hpos.
Qed.

Lemma delete_task_position st p q k :
  py_position (tasks (self st)) (p - 1) = Some k →
  py_position (tasks (self st)) (q - 1) = Some k →
  delete_task p st = delete_task q st.
Proof.
  intros Hp Hq.
  assert (Hpop : tasks_pop (p - 1) st = tasks_pop (q - 1) st).
  { unfold tasks_pop, bind, get_tasks. by rewrite Hp, Hq. }
  unfold delete_task, try_except, bind at 1 3. by rewrite Hpop.
Qed.

Lemma printed_differs (s1 s2 : TodoList) l1 l2 w1 w2 :
  l1 ≠ l2 →
  (Val tt, mkSt s1 (printed l1 w1)) ≠ (Val tt, mkSt s2 (printed l2 w2)).
Proof.
  intros Hne Heq.
  pose proof (f_equal (λ r, last (stdout (world (snd r)))) Heq) as Hlast.
  simpl in Hlast. rewrite !last_snoc in Hlast. congruence.
Qed.

Lemma refusal_is_not_success (fn : string) ts w (k : nat) (t : Task) p :
  py_position ts (p - 1) = Some k → ts !! k = Some t → task_ok t →
  mark_completed p (mkSt (mkTodoList fn ts) w)
    ≠ (Val tt, mkSt (mkTodoList fn ts) (printed invalid_task_number w))
  ∧ delete_task p (mkSt (mkTodoList fn ts) w)
    ≠ (Val tt, mkSt (mkTodoList fn ts) (printed invalid_task_number w)).
Proof.
  intros Hpos Hk Hok. split.
  - rewrite (mark_completed_at fn ts w p k t Hpos Hk Hok).
    by apply printed_differs.
  - rewrite (delete_task_at fn ts w p k t Hpos Hk Hok).
    by apply printed_differs.
Qed.

Lemma index_sized_spec (i : Z) :
  index_sized i = true ↔ - 2 ^ 63 ≤ i < 2 ^ 63.
Proof.
  unfold index_sized, PY_SSIZE_T_MAX. rewrite bool_decide_eq_true. lia.
Qed.

Lemma index_sized_false (i : Z) :
  index_sized i = false ↔ i < - 2 ^ 63 ∨ 2 ^ 63 ≤ i.
Proof.
  unfold index_sized, PY_SSIZE_T_MAX. rewrite bool_decide_eq_false. lia.
Qed.

(** With the at most [PY_SSIZE_T_MAX] items a list can hold, it makes no
    difference whether [list.pop] converts its argument before or after
    looking for the position: an index that does not convert addresses
    none. *)
Lemma tasks_pop_converts_first (st : St) (i : Z) :
  Z.of_nat (length (tasks (self st))) ≤ PY_SSIZE_T_MAX →
  tasks_pop i st
  = if index_sized i
    then (ts <- get_tasks;;
          match py_position ts i with
          | Some k =>
              match ts !! k with
              | Some t => set_tasks (delete k ts);; ret t
              | None => raise IndexError
              end
          | None => raise IndexError
          end) st
    else (Raise OverflowError, st).
Proof.
  intros Hlen. unfold tasks_pop, bind, get_tasks.
  destruct (index_sized i) eqn:Hsz.
  - by destruct (py_position _ i).
  - apply index_sized_false in Hsz. unfold PY_SSIZE_T_MAX in Hlen.
    rewrite py_position_outside by lia. done.
Qed.

(** X1: on a store of valid tasks, [mark_completed p] answers with the
    message for an invalid task number, changing neither the sequence
    nor any file, exactly when [p] is above the length or at most its
    negation.  [delete_task p] gives that answer exactly when, besides,
    [p - 1] fits the index type of [list.pop], that is for
    [-2^63 < p ≤ 2^63]; for the other [p] outside the range it prints
    nothing and ends with [OverflowError], the store and the world as
    they were. *)
Theorem refused_exactly_outside_range :
  ∀ (st : St) (p : Z),
    store_ok st →
    let n := Z.of_nat (length (tasks (self st))) in
    let refused := (Val tt, mkSt (self st) (printed invalid_task_number (world st))) in
    (mark_completed p st = refused ↔ n < p ∨ p ≤ - n)
    ∧ (delete_task p st = refused ↔ (n < p ∨ p ≤ - n) ∧ - 2 ^ 63 < p ≤ 2 ^ 63)
    ∧ (delete_task p st = (Raise OverflowError, st)
       ↔ (n < p ∨ p ≤ - n) ∧ (p ≤ - 2 ^ 63 ∨ 2 ^ 63 < p)).
Proof.
  intros [[fn ts] w] p Hok n refused. unfold store_ok in Hok. simpl in *.
  destruct (py_position ts (p - 1)) as [k |] eqn:Hpos.
  - destruct (lookup_lt_is_Some_2 ts k (py_position_Some _ _ _ Hpos)) as [t Hk].
    assert (Ht : task_ok t) by (by eapply Forall_lookup_1).
    destruct (refusal_is_not_success fn ts w k t p Hpos Hk Ht) as [Hmark Hdel].
    assert (Hin : ¬ (n < p ∨ p ≤ - n)).
    { intros Hout. rewrite py_position_outside in Hpos by (fold n; lia). done. }
    split_and!; split; try (intros H; tauto).
    rewrite (delete_task_at fn ts w p k t Hpos Hk Ht). discriminate.
  - assert (Hout : n < p ∨ p ≤ - n).
    { destruct (decide (n < p ∨ p ≤ - n)) as [|Hin]; [done |].
      unfold py_position in Hpos. fold n in Hpos.
      repeat case_bool_decide; try done; lia. }
    split_and!.
    + split; intros _; [done |].
      by apply (mark_completed_outside (mkSt (mkTodoList fn ts) w)).
    + destruct (index_sized (p - 1)) eqn:Hsz.
      * rewrite (delete_task_outside (mkSt (mkTodoList fn ts) w) p Hpos Hsz).
        apply index_sized_spec in Hsz. split; intros _; [split; [done | lia] | done].
      * rewrite (delete_task_overflow (mkSt (mkTodoList fn ts) w) p Hpos Hsz).
        apply index_sized_false in Hsz. split; [discriminate | lia].
    + destruct (index_sized (p - 1)) eqn:Hsz.
      * rewrite (delete_task_outside (mkSt (mkTodoList fn ts) w) p Hpos Hsz).
        apply index_sized_spec in Hsz. split; [discriminate | lia].
      * rewrite (delete_task_overflow (mkSt (mkTodoList fn ts) w) p Hpos Hsz).
        apply index_sized_false in Hsz. split; intros _; [split; [done | lia] | done].
Qed.

Lemma refused_exactly_outside_range_witness :
  mark_completed 3 (mkSt (mkTodoList "tasks.json" [milk; bread]) quiet_world)
  = (Val tt, mkSt (mkTodoList "tasks.json" [milk; bread])
               (printed invalid_task_number quiet_world))
  ∧ delete_task (-2) (mkSt (mkTodoList "tasks.json" [milk; bread]) quiet_world)
    = (Val tt, mkSt (mkTodoList "tasks.json" [milk; bread])
                 (printed invalid_task_number quiet_world))
  ∧ delete_task 99999999999999999999
      (mkSt (mkTodoList "tasks.json" [milk; bread]) quiet_world)
    = (Raise OverflowError, mkSt (mkTodoList "tasks.json" [milk; bread]) quiet_world).
Proof.
  assert (Hok : store_ok (mkSt (mkTodoList "tasks.json" [milk; bread]) quiet_world)).
  { unfold store_ok. simpl. repeat constructor; unfold task_ok; apply elem_of_123;
      simpl; lia. }
  split_and!.
  - apply (proj1 (refused_exactly_outside_range _ 3 Hok)). simpl. lia.
  - apply (proj1 (proj2 (refused_exactly_outside_range _ (-2) Hok))). simpl. lia.
  - apply (proj2 (proj2 (refused_exactly_outside_range _ 99999999999999999999 Hok))).
    simpl. lia.
Defined.

(** X2: a position [p] with [-len < p ≤ 0] is taken for the position
    [p + len]: [mark_completed] and [delete_task] do exactly what they
    do there. *)
Theorem non_positive_position_counts_from_the_end :
  ∀ (st : St) (p : Z),
    let n := Z.of_nat (length (tasks (self st))) in
    - n < p ≤ 0 →
    mark_completed p st = mark_completed (p + n) st
    ∧ delete_task p st = delete_task (p + n) st.
Proof.
  intros st p n Hp.
  assert (Hback : py_position (tasks (self st)) (p - 1) = Some (Z.to_nat (p + n - 1))).
  { rewrite py_position_back by (fold n; lia). f_equal. fold n. lia. }
  assert (Hfront : py_position (tasks (self st)) (p + n - 1)
                   = Some (Z.to_nat (p + n - 1))).
  { by rewrite py_position_front by (fold n; lia). }
  split; [apply mark_completed_position; congruence
         | by eapply delete_task_position].
Qed.

Lemma non_positive_position_counts_from_the_end_witness :
  mark_completed (-1) (mkSt (mkTodoList "tasks.json" [milk; bread]) quiet_world)
  = mark_completed 1 (mkSt (mkTodoList "tasks.json" [milk; bread]) quiet_world).
Proof.
  apply (non_positive_position_counts_from_the_end
           (mkSt (mkTodoList "tasks.json" [milk; bread]) quiet_world) (-1)).
  simpl. lia.
Defined.

(** X3: [mark_completed p] with [p] in [1..N] changes one thing: the
    flag of the task at [p].  The length, the task at every other
    position, and the description, due date, priority and creation time
    of the task at [p] stay as they were. *)
Theorem mark_completed_changes_only_the_flag :
  ∀ (st : St) (p : Z),
    store_ok st →
    1 ≤ p ≤ Z.of_nat (length (tasks (self st))) →
    let ts := tasks (self st) in
    let ts' := tasks (self (snd (mark_completed p st))) in
    length ts' = length ts
    ∧ (∀ q, q ≠ p → task_at ts' q = task_at ts q)
    ∧ ∃ t t', task_at ts p = Some t
              ∧ task_at ts' p = Some t'
              ∧ description t' = description t
              ∧ due_date t' = due_date t
              ∧ priority t' = priority t
              ∧ created_at t' = created_at t
              ∧ completed t' = true.
Proof.
  intros [[fn ts0] w] p Hok Hp. unfold store_ok in Hok. simpl in *.
  destruct (valid_position ts0 p Hp) as [Hpos [t Hk]].
  assert (Ht : task_ok t) by (by eapply Forall_lookup_1).
  rewrite (mark_completed_at fn ts0 w p _ t Hpos Hk Ht). simpl.
  split; [by rewrite length_insert |]. split.
  - intros q Hq. unfold task_at. case_bool_decide; [| done].
    apply list_lookup_insert_ne. lia.
  - exists t, (set_completed true t). unfold task_at.
    rewrite bool_decide_eq_true_2 by lia.
    rewrite list_lookup_insert_eq by (by eapply lookup_lt_Some).
    by destruct t.
Qed.

Lemma mark_completed_changes_only_the_flag_witness :
  task_at (tasks (self (snd (mark_completed 2
     (mkSt (mkTodoList "tasks.json" [milk; bread]) quiet_world))))) 1
  = Some milk.
Proof.
  assert (Hok : store_ok (mkSt (mkTodoList "tasks.json" [milk; bread]) quiet_world)).
  { unfold store_ok. simpl. repeat constructor; unfold task_ok; apply elem_of_123;
      simpl; lia. }
  assert (Hp : 1 ≤ 2 ≤ Z.of_nat (length (tasks (self
                 (mkSt (mkTodoList "tasks.json" [milk; bread]) quiet_world)))))
    by (simpl; lia).
  destruct (mark_completed_changes_only_the_flag _ 2 Hok Hp) as (_ & Hothers & _).
  assert (H12 : (1 : Z) ≠ 2) by lia.
  exact (Hothers 1 H12).
Defined.

(** ** What the operations leave alone *)

Global Instance own_file_only_preorder : PreOrder own_file_only.
Proof.
  split.
  - intros st. by repeat split.
  - intros st1 st2 st3 (Hf & Hr & Hw & Hn & Hfiles & Hout)
      (Hf' & Hr' & Hw' & Hn' & Hfiles' & Hout').
    repeat split; try congruence.
    + intros path Hpath. rewrite Hfiles' by congruence. by apply Hfiles.
    + by etrans.
Qed.

Global Instance output_only_preorder : PreOrder output_only.
Proof.
  split.
  - intros st. by repeat split.
  - intros st1 st2 st3 (Hs & Hf & Hr & Hw & Hn & Hout)
      (Hs' & Hf' & Hr' & Hw' & Hn' & Hout').
    repeat split; try congruence. by etrans.
Qed.

Lemma output_only_own_file st st' : output_only st st' → own_file_only st st'.
Proof.
  intros (Hs & Hf & Hr & Hw & Hn & Hout).
  repeat split; try done; [by rewrite Hs | intros; by rewrite Hf].
Qed.

Section preserved.
Context (R : St → St → Prop) `{!PreOrder R}.

Lemma preserves_lift {A} (r : res A) : preserves R (lift r).
Proof. intros st. simpl. reflexivity. Qed.

Lemma preserves_ret {A} (a : A) : preserves R (ret a).
Proof. intros st. simpl. reflexivity. Qed.

Lemma preserves_bind {A B} (m : M A) (k : A → M B) :
  preserves R m → (∀ a, preserves R (k a)) → preserves R (bind m k).
Proof.
  intros Hm Hk st. unfold bind. specialize (Hm st).
  destruct (m st) as [[a | e |] st']; simpl in *; try done.
  etrans; [apply Hm | apply Hk].
Qed.

Lemma preserves_try_except {A} (body : M A) (handler : exn → option (M A)) :
  preserves R body →
  (∀ e h, handler e = Some h → preserves R h) →
  preserves R (try_except body handler).
Proof.
  intros Hbody Hhandler st. unfold try_except. specialize (Hbody st).
  destruct (body st) as [[a | e |] st']; simpl in *; try done.
  destruct (handler e) as [h |] eqn:He; simpl; [| done].
  etrans; [apply Hbody | by eapply Hhandler].
Qed.

Lemma preserves_get_tasks : preserves R get_tasks.
Proof. intros st. simpl. reflexivity. Qed.

Lemma preserves_get_filename : preserves R get_filename.
Proof. intros st. simpl. reflexivity. Qed.

Lemma preserves_get_world : preserves R get_world.
Proof. intros st. simpl. reflexivity. Qed.

Lemma preserves_path_exists path : preserves R (path_exists path).
Proof. intros st. simpl. reflexivity. Qed.

Lemma preserves_read_json path : preserves R (read_json path).
Proof.
  intros st. unfold read_json, bind, get_world. simpl.
  destruct (unreadable (world st) !! path); simpl; [reflexivity |].
  destruct (files (world st) !! path) as [[doc | msg] |]; simpl; reflexivity.
Qed.
End preserved.

Lemma print_output_only line : preserves output_only (print line).
Proof.
  intros [s w]. rewrite print_run. unfold printed. simpl.
  repeat split. by apply prefix_app_r.
Qed.

Lemma view_loop_output_only show_completed priority_filter i ts :
  preserves output_only (view_loop show_completed priority_filter i ts).
Proof.
  revert i. induction ts as [| t ts IH]; intros i; simpl.
  - apply preserves_ret, _.
  - apply preserves_bind; [apply _ | | intros _; apply IH].
    destruct (completed t && negb show_completed); [apply preserves_ret, _ |].
    destruct (filter_truthy priority_filter
              && priority_differs (priority t) priority_filter);
      [apply preserves_ret, _ |].
    apply preserves_bind; [apply _ | apply preserves_lift, _ |].
    intros s. apply print_output_only.
Qed.

Lemma view_tasks_output_only show_completed priority_filter :
  preserves output_only (view_tasks show_completed priority_filter).
Proof.
  unfold view_tasks.
  apply preserves_bind; [apply _ | apply print_output_only |]. intros _.
  apply preserves_bind; [apply _ | apply preserves_get_tasks, _ |]. intros ts.
  destruct ts as [| t ts]; [apply print_output_only |].
  apply preserves_bind; [apply _ | apply view_loop_output_only |].
  intros _. apply print_output_only.
Qed.

Lemma preserves_weaken {A} (m : M A) :
  preserves output_only m → preserves own_file_only m.
Proof. intros Hm st. apply output_only_own_file, Hm. Qed.

Lemma set_tasks_own_file ts : preserves own_file_only (set_tasks ts).
Proof. intros st. simpl. by repeat split. Qed.

Lemma save_tasks_own_file : preserves own_file_only save_tasks.
Proof.
  intros [s w]. rewrite save_tasks_run. unfold saved_world. simpl.
  destruct (unwritable w !! filename s); simpl; repeat split; try done.
  - simpl. by apply prefix_app_r.
  - intros path Hpath. simpl in *. by rewrite lookup_insert_ne.
Qed.

Lemma load_loop_own_file items : preserves own_file_only (load_loop items).
Proof.
  induction items as [| data items IH]; simpl; [apply preserves_ret, _ |].
  apply preserves_bind; [apply _ | | intros _; apply IH].
  intros [[fn ts] w]. rewrite load_record_run.
  destruct (record_task (now w) data); simpl; by repeat split.
Qed.

Lemma load_tasks_own_file : preserves own_file_only load_tasks.
Proof.
  unfold load_tasks.
  apply preserves_bind; [apply _ | apply preserves_get_filename, _ |]. intros path.
  apply preserves_bind; [apply _ | apply preserves_path_exists, _ |]. intros found.
  destruct found; simpl; [| apply preserves_ret, _].
  apply preserves_try_except; [apply _ | |].
  - apply preserves_bind; [apply _ | apply preserves_read_json, _ |]. intros doc.
    apply preserves_bind; [apply _ | apply set_tasks_own_file |]. intros _.
    apply preserves_bind; [apply _ | apply preserves_lift, _ |]. intros items.
    apply load_loop_own_file.
  - intros e h He.
    destruct e; simpl in He; try discriminate; injection He as <-;
      apply preserves_weaken, print_output_only.
Qed.

Lemma on_IndexError_own_file e h :
  on_IndexError (print invalid_task_number) e = Some h → preserves own_file_only h.
Proof.
  destruct e; simpl; try discriminate. intros [= <-].
  apply preserves_weaken, print_output_only.
Qed.

Lemma report_own_file (prefix : string) (t : Task) :
  preserves own_file_only (s <- lift (Task_str t);; print (prefix +:+ s)).
Proof.
  apply preserves_bind; [apply _ | apply preserves_lift, _ |].
  intros s. apply preserves_weaken, print_output_only.
Qed.

Lemma add_task_own_file d kw : preserves own_file_only (add_task d kw).
Proof.
  unfold add_task, Task_new.
  apply preserves_bind; [apply _ | |].
  { apply preserves_bind; [apply _ | apply preserves_get_world, _ |].
    intros w. apply preserves_ret, _. }
  intros t. apply preserves_bind; [apply _ | apply preserves_get_tasks, _ |].
  intros ts. apply preserves_bind; [apply _ | apply set_tasks_own_file |].
  intros _. apply preserves_bind; [apply _ | apply save_tasks_own_file |].
  intros _. apply report_own_file.
Qed.

Lemma mark_completed_own_file p : preserves own_file_only (mark_completed p).
Proof.
  unfold mark_completed.
  apply preserves_try_except; [apply _ | | apply on_IndexError_own_file].
  apply preserves_bind; [apply _ | |].
  { unfold tasks_index.
    apply preserves_bind; [apply _ | apply preserves_get_tasks, _ |]. intros ts.
    destruct (py_position ts (p - 1)) as [k |]; [| apply preserves_lift, _].
    destruct (ts !! k); [apply preserves_ret, _ | apply preserves_lift, _]. }
  intros found. apply preserves_bind; [apply _ | |].
  { unfold tasks_update.
    apply preserves_bind; [apply _ | apply preserves_get_tasks, _ |]. intros ts.
    destruct (ts !! found.1); [| apply preserves_lift, _].
    apply preserves_bind; [apply _ | apply set_tasks_own_file |].
    intros _. apply preserves_ret, _. }
  intros t. apply preserves_bind; [apply _ | apply save_tasks_own_file |].
  intros _. apply report_own_file.
Qed.

Lemma delete_task_own_file p : preserves own_file_only (delete_task p).
Proof.
  unfold delete_task.
  apply preserves_try_except; [apply _ | | apply on_IndexError_own_file].
  apply preserves_bind; [apply _ | |].
  { unfold tasks_pop.
    apply preserves_bind; [apply _ | apply preserves_get_tasks, _ |]. intros ts.
    destruct (py_position ts (p - 1)) as [k |];
      [| destruct (index_sized (p - 1)); apply preserves_lift, _].
    destruct (ts !! k); [| apply preserves_lift, _].
    apply preserves_bind; [apply _ | apply set_tasks_own_file |].
    intros _. apply preserves_ret, _. }
  intros t. apply preserves_bind; [apply _ | apply save_tasks_own_file |].
  intros _. apply report_own_file.
Qed.

(** X4: whatever its arguments and however it ends, no operation of the
    store changes its path, the permissions, the clock or any file other
    than its own, and none takes back a line it printed. *)
Theorem operations_touch_only_their_file :
  ∀ (d : string) (kw : kwargs) (p : Z) (show_completed : bool)
    (priority_filter : option Z),
    preserves own_file_only (add_task d kw)
    ∧ preserves own_file_only (mark_completed p)
    ∧ preserves own_file_only (delete_task p)
    ∧ preserves own_file_only (view_tasks show_completed priority_filter)
    ∧ preserves own_file_only save_tasks
    ∧ preserves own_file_only load_tasks.
Proof.
  intros d kw p show_completed priority_filter.
  split_and!.
  - apply add_task_own_file.
  - apply mark_completed_own_file.
  - apply delete_task_own_file.
  - apply preserves_weaken, view_tasks_output_only.
  - apply save_tasks_own_file.
  - apply load_tasks_own_file.
Qed.

(** X5: [view_tasks] only prints.  For every store, valid or not, and
    every pair of arguments, the run leaves the sequence, the path and
    every file as they were, also when it ends in an exception. *)
Theorem view_tasks_only_prints :
  ∀ (st : St) (show_completed : bool) (priority_filter : option Z),
    let st' := snd (view_tasks show_completed priority_filter st) in
    self st' = self st
    ∧ files (world st') = files (world st)
    ∧ stdout (world st) `prefix_of` stdout (world st').
Proof.
  intros st show_completed priority_filter st'.
  destruct (view_tasks_output_only show_completed priority_filter st)
    as (Hs & Hf & _ & _ & _ & Hout).
  done.
Qed.

(** ** Saving that fails *)



(** ** Rendering a task whose priority is not a key *)

(** X7: [Task.__str__] returns the text exactly for the priorities 1, 2
    and 3; for every other priority the look-up in [priority_map] raises
    [KeyError] with that priority. *)
Theorem Task_str_raises_exactly_off_the_map :
  ∀ t : Task,
    (priority t ∈ [1; 2; 3] ↔ ∃ s, Task_str t = Val s)
    ∧ (priority t ∉ [1; 2; 3] ↔ Task_str t = Raise (KeyError (JInt (priority t)))).
Proof.
  intros t. destruct (decide (task_ok t)) as [Hok | Hbad].
  - pose proof (Task_str_ok t Hok) as Hstr. unfold task_ok in Hok.
    split; split; try done.
    + intros _. eauto.
    + intros Hraise. rewrite Hstr in Hraise. discriminate Hraise.
  - pose proof (Task_str_miss t Hbad) as Hstr. unfold task_ok in Hbad.
    split; split; try done.
    intros [s Hs]. rewrite Hstr in Hs. discriminate Hs.
Qed.

Lemma Task_str_raises_exactly_off_the_map_witness :
  Task_str odd = Raise (KeyError (JInt 7)).
Proof.
  apply (proj2 (Task_str_raises_exactly_off_the_map odd)).
  unfold odd. simpl. rewrite elem_of_123. lia.
Defined.

(** ** The filter 0 *)

Lemma view_loop_filter_zero show_completed i ts :
  view_loop show_completed (Some 0) i ts = view_loop show_completed None i ts.
Proof.
  revert i. induction ts as [| t ts IH]; intros i; simpl; [done |].
  by rewrite IH.
Qed.

(** X8: the priority filter 0 is no filter: [view_tasks] with it does
    what it does with the filter left out, on every store. *)
Theorem filter_zero_is_no_filter :
  ∀ (st : St) (show_completed : bool),
    view_tasks show_completed (Some 0) st = view_tasks show_completed None st.
Proof.
  intros st show_completed. unfold view_tasks, bind.
  destruct (print view_header st) as [[[] | e |] st1]; try done.
  destruct (get_tasks st1) as [[ts | e |] st2]; try done.
  destruct ts as [| t ts]; [done |].
  by rewrite view_loop_filter_zero.
Qed.

(** ** Valid priorities, always *)

(** X9: every store the program can hold has priorities 1, 2 or 3 only:
    the constructor leaves such a store whatever the file holds, also
    when loading ends early, and [add_task], [mark_completed] and
    [delete_task] keep a store so for all arguments. *)
Theorem priorities_stay_valid :
  (∀ (fn : string) (w : World), store_ok (snd (TodoList_init fn w)))
  ∧ (∀ (st : St) (d : string) (kw : kwargs),
       store_ok st → store_ok (snd (add_task d kw st)))
  ∧ (∀ (st : St) (p : Z), store_ok st → store_ok (snd (mark_completed p st)))
  ∧ (∀ (st : St) (p : Z), store_ok st → store_ok (snd (delete_task p st))).
Proof.
  split_and!.
  - apply TodoList_init_ok.
  - apply add_task_ok.
  - apply mark_completed_ok.
  - apply delete_task_ok.
Qed.

Lemma priorities_stay_valid_witness :
  store_ok (snd (add_task "Pay rent" (mkKwargs None (Some 9) None)
                   (mkSt (mkTodoList "tasks.json" [milk]) quiet_world))).
Proof.
  apply (proj1 (proj2 priorities_stay_valid)).
  unfold store_ok. simpl. repeat constructor; unfold task_ok; apply elem_of_123;
    simpl; lia.
Defined.

(** ** Loading over an earlier sequence, and loading that fails *)

(** X10: loading a readable list of well-formed records replaces what
    the store held: the sequence afterwards is the one a new store on
    the same path gets, one task per record, whatever was there
    before. *)
Theorem load_replaces_the_sequence :
  ∀ (fn : string) (prior : list Task) (w : World) (items : list json),
    files w !! fn = Some (JsonText (JList items)) →
    unreadable w !! fn = None →
    Forall well_formed items →
    ∃ ts : list Task,
      load_tasks (mkSt (mkTodoList fn prior) w) = (Val tt, mkSt (mkTodoList fn ts) w)
      ∧ TodoList_init fn w = (Val tt, mkSt (mkTodoList fn ts) w)
      ∧ length ts = length items.
Proof.
  intros fn prior w items Hfile Hread Hall.
  destruct (well_formed_loads (now w) items Hall) as [ts Hts].
  exists ts. unfold TodoList_init.
  rewrite !(load_tasks_list fn _ w items Hfile Hread).
  unfold try_except. rewrite (load_loop_run items ts) by done.
  split_and!; try done. symmetry. by eapply Forall2_length.
Qed.

Lemma load_replaces_the_sequence_witness :
  ∃ ts, load_tasks (mkSt (mkTodoList "tasks.json" [milk; bread]) old_format)
        = (Val tt, mkSt (mkTodoList "tasks.json" ts) old_format)
        ∧ length ts = 1%nat.
Proof.
  assert (Hwf : Forall well_formed
                  [JObj [("description", JStr "Buy milk"); ("due_date", JNull);
                         ("priority", JInt 1); ("completed", JBool true)]]).
  { repeat constructor.
    eexists _, "Buy milk", JNull, 1, true. repeat split; try reflexivity; auto. }
  destruct (load_replaces_the_sequence "tasks.json" [milk; bread] old_format _
              eq_refl eq_refl Hwf) as (ts & Hload & _ & Hlen).
  exists ts. split; [exact Hload | exact Hlen].
Defined.

(** X11: the failures [load_tasks] handles leave the sequence as it
    was.  With no file at the path nothing happens at all; with a file
    that cannot be opened, or whose text is not JSON, the run returns
    normally, prints the error line and keeps the tasks the store had
    (none, for a store under construction). *)
Theorem handled_load_failures_keep_the_sequence :
  ∀ (st : St) (msg : string),
    let path := filename (self st) in
    let w := world st in
    (files w !! path = None → load_tasks st = (Val tt, st))
    ∧ (is_Some (files w !! path) → unreadable w !! path = Some msg →
       load_tasks st
       = (Val tt, mkSt (self st) (printed ("Error loading tasks: " +:+ msg) w)))
    ∧ (files w !! path = Some (BadText msg) → unreadable w !! path = None →
       load_tasks st
       = (Val tt, mkSt (self st) (printed ("Error loading tasks: " +:+ msg) w))).
Proof.
  intros st msg path w. split_and!.
  - apply load_tasks_no_file.
  - apply load_tasks_unreadable.
  - apply load_tasks_bad_text.
Qed.

Lemma handled_load_failures_keep_the_sequence_witness :
  load_tasks (mkSt (mkTodoList "tasks.json" [milk]) garbled_world)
  = (Val tt,
     mkSt (mkTodoList "tasks.json" [milk])
       (printed "Error loading tasks: Expecting value: line 1 column 1 (char 0)"
          garbled_world)).
Proof.
  apply (proj2 (proj2 (handled_load_failures_keep_the_sequence
                         (mkSt (mkTodoList "tasks.json" [milk]) garbled_world)
                         "Expecting value: line 1 column 1 (char 0)")));
    reflexivity.
Defined.

(** X12: a readable JSON document that is no list.  The sequence is
    emptied first in every case.  The empty object and the empty string
    then load as no tasks; every other object or string, and null, the
    booleans and the numbers, end the run with an unhandled
    [TypeError]. *)
Theorem load_of_a_document_that_is_no_list :
  ∀ (fn : string) (prior : list Task) (w : World) (doc : json),
    files w !! fn = Some (JsonText doc) →
    unreadable w !! fn = None →
    let emptied := mkSt (mkTodoList fn []) w in
    match doc with
    | JList _ => True
    | JObj [] | JStr EmptyString =>
        load_tasks (mkSt (mkTodoList fn prior) w) = (Val tt, emptied)
    | _ => load_tasks (mkSt (mkTodoList fn prior) w) = (Raise TypeError, emptied)
    end.
Proof.
  intros fn prior w doc Hfile Hread emptied.
  assert (Hrun : load_tasks (mkSt (mkTodoList fn prior) w)
                 = match py_iter doc with
                   | Val items =>
                       match load_loop items emptied with
                       | (Raise (IOError m), st') | (Raise (JSONDecodeError m), st') =>
                           print ("Error loading tasks: " +:+ m) st'
                       | r => r
                       end
                   | Raise (IOError m) | Raise (JSONDecodeError m) =>
                       print ("Error loading tasks: " +:+ m) emptied
                   | Raise e => (Raise e, emptied)
                   | Dynamic => (Dynamic, emptied)
                   end).
  { unfold load_tasks, bind at 1. unfold get_filename. simpl.
    unfold bind at 1. unfold path_exists, bind at 1, get_world, ret. simpl.
    rewrite Hfile. rewrite bool_decide_eq_true_2 by eauto. simpl.
    unfold try_except, bind at 1. unfold read_json, bind at 1, get_world. simpl.
    rewrite Hread, Hfile. simpl.
    unfold bind at 1. unfold set_tasks. simpl. unfold bind at 1. unfold lift.
    fold emptied.
    destruct (py_iter doc) as [items | e |]; simpl; [| by destruct e | done].
    destruct (load_loop items emptied) as [[[] | e |] st']; simpl; try done.
    by destruct e. }
  destruct doc as [| b | n | s | items | fields]; try done.
  - destruct s as [| c s]; [done |].
    by rewrite Hrun.
  - destruct fields as [| [key v] fields]; [done |].
    by rewrite Hrun.
Qed.

Lemma load_of_a_document_that_is_no_list_witness :
  load_tasks (mkSt (mkTodoList "tasks.json" [milk]) number_world)
  = (Raise TypeError, mkSt (mkTodoList "tasks.json" []) number_world).
Proof.
  exact (load_of_a_document_that_is_no_list "tasks.json" [milk] number_world (JInt 5)
           eq_refl eq_refl).
Defined.

Lemma record_task_first_missing clock fields key :
  first_missing fields = Some key →
  record_task clock (JObj fields) = Raise (KeyError (JStr key)).
Proof.
  unfold first_missing, required_keys, record_task, subscript.
  rewrite !filter_cons, filter_nil.
  destruct (assoc fields "description"); simpl; [| by intros [= <-]].
  destruct (assoc fields "due_date"); simpl; [| by intros [= <-]].
  destruct (assoc fields "priority"); simpl; [| by intros [= <-]].
  destruct (assoc fields "completed"); simpl; [| by intros [= <-]].
  discriminate.
Qed.

(** X13: among the four keys [load_tasks] subscripts, the first one a
    record lacks is the one the [KeyError] names, whatever the types of
    the values present; a record that is no object raises [TypeError].
    Either way the exception is not handled and the store keeps the
    tasks of the records before. *)
Theorem load_names_the_first_missing_key :
  ∀ (fn : string) (w : World) (good : list json) (loaded : list Task)
    (data : json) (rest : list json),
    files w !! fn = Some (JsonText (JList (good ++ data :: rest))) →
    unreadable w !! fn = None →
    Forall2 (λ item t, record_task (now w) item = Val t) good loaded →
    match data with
    | JObj fields =>
        ∀ key, first_missing fields = Some key →
          TodoList_init fn w
          = (Raise (KeyError (JStr key)), mkSt (mkTodoList fn loaded) w)
    | _ =>
        TodoList_init fn w = (Raise TypeError, mkSt (mkTodoList fn loaded) w)
    end.
Proof.
  intros fn w good loaded data rest Hfile Hread Hgood.
  assert (Hstop : ∀ e, record_task (now w) data = Raise e →
            (∀ m, e ≠ IOError m) → (∀ m, e ≠ JSONDecodeError m) →
            TodoList_init fn w = (Raise e, mkSt (mkTodoList fn loaded) w)).
  { intros e He Hio Hjson. unfold TodoList_init.
    rewrite (load_tasks_list fn [] w _ Hfile Hread). unfold try_except.
    rewrite (load_loop_stops good loaded data rest fn [] w (Raise e) Hgood He)
      by done.
    destruct e; simpl; try done; [by destruct (Hio msg) | by destruct (Hjson msg)]. }
  destruct data as [| b | n | s | items | fields]; try (by apply Hstop).
  intros key Hkey. apply Hstop; [| done | done].
  by apply record_task_first_missing.
Qed.

Lemma load_names_the_first_missing_key_witness :
  TodoList_init "tasks.json" short_record_world
  = (Raise (KeyError (JStr "priority")),
     mkSt (mkTodoList "tasks.json" [milk]) short_record_world).
Proof.
  apply (load_names_the_first_missing_key "tasks.json" short_record_world
           [task_record milk] [milk]
           (JObj [("due_date", JNull); ("description", JStr "Buy bread")]) []).
  - reflexivity.
  - reflexivity.
  - repeat constructor.
  - reflexivity.
Defined.

(** ** Changes and the file *)

Lemma reopen_saved (s : TodoList) (w : World) (later : string) :
  Forall task_ok (tasks s) →
  unwritable w !! filename s = None →
  unreadable w !! filename s = None →
  ∀ out, TodoList_init (filename s)
           (with_now later (with_stdout out (saved_world s w)))
         = (Val tt, mkSt s (with_now later (with_stdout out (saved_world s w)))).
Proof.
  destruct s as [fn ts]. simpl. intros Hok Hwrite Hread out.
  unfold TodoList_init, saved_world. simpl. rewrite Hwrite.
  rewrite (load_tasks_list fn [] _ (map task_record ts)).
  - unfold try_except.
    rewrite (load_loop_run (map task_record ts) ts); [done |].
    by apply record_tasks_of_tasks.
  - simpl. by rewrite lookup_insert_eq.
  - done.
Qed.

(** X14: a change made while the file can be written and read survives
    a restart.  After [add_task], on every store of valid tasks, the
    empty one too, and after [mark_completed] or [delete_task] at a
    position in [1..N], a store constructed on the same path, at
    whatever later time, holds exactly the sequence the first store
    holds in memory. *)
Theorem changes_survive_a_restart :
  ∀ (st : St) (d : string) (kw : kwargs) (p : Z) (later : string),
    store_ok st →
    unwritable (world st) !! filename (self st) = None →
    unreadable (world st) !! filename (self st) = None →
    let restarted (r : res unit * St) :=
      TodoList_init (filename (self st)) (with_now later (world (snd r))) in
    let same (r : res unit * St) :=
      fst (restarted r) = Val tt
      ∧ self (snd (restarted r)) = self (snd r) in
    same (add_task d kw st)
    ∧ (1 ≤ p ≤ Z.of_nat (length (tasks (self st))) →
       same (mark_completed p st) ∧ same (delete_task p st)).
Proof.
  intros [[fn ts] w] d kw p later Hok Hwrite Hread.
  unfold store_ok in Hok. simpl in *.
  split.
  - rewrite add_task_run. simpl. unfold printed.
    rewrite (reopen_saved (mkTodoList fn _) w later); try done.
    apply Forall_app. split; [done |].
    constructor; [apply Task_init_ok | done].
  - intros Hp.
    destruct (valid_position ts p Hp) as [Hpos [t Hk]].
    assert (Ht : task_ok t) by (by eapply Forall_lookup_1).
    split.
    + rewrite (mark_completed_at fn ts w p _ t Hpos Hk Ht). simpl. unfold printed.
      rewrite (reopen_saved (mkTodoList fn _) w later); try done.
      by apply Forall_insert.
    + rewrite (delete_task_at fn ts w p _ t Hpos Hk Ht). simpl. unfold printed.
      rewrite (reopen_saved (mkTodoList fn _) w later); try done.
      by apply Forall_delete.
Qed.

Lemma changes_survive_a_restart_witness :
  tasks (self (snd (TodoList_init "tasks.json"
     (with_now "2031-05-06 07:08"
        (world (snd (add_task "Buy milk" no_kwargs empty_store)))))))
  = [mkTask "Buy milk" None 2 false "2024-01-03 08:00"]
  ∧ tasks (self (snd (TodoList_init "tasks.json"
       (with_now "2031-05-06 07:08"
          (world (snd (delete_task 1
             (mkSt (mkTodoList "tasks.json" [milk; bread]) quiet_world))))))))
    = [bread].
Proof.
  split.
  - destruct (changes_survive_a_restart empty_store "Buy milk" no_kwargs 1
                "2031-05-06 07:08" (Forall_nil_2 _) eq_refl eq_refl)
      as ((_ & Hsame) & _).
    simpl in Hsame. by rewrite Hsame.
  - assert (Hok : store_ok (mkSt (mkTodoList "tasks.json" [milk; bread]) quiet_world)).
    { unfold store_ok. simpl. repeat constructor; unfold task_ok; apply elem_of_123;
        simpl; lia. }
    assert (Hp : 1 ≤ 1 ≤ Z.of_nat (length (tasks (self
                   (mkSt (mkTodoList "tasks.json" [milk; bread]) quiet_world)))))
      by (simpl; lia).
    destruct (changes_survive_a_restart _ "x" no_kwargs 1 "2031-05-06 07:08"
                Hok eq_refl eq_refl) as (_ & Hpositions).
    destruct (Hpositions Hp) as (_ & _ & Hsame).
    simpl in Hsame. by rewrite Hsame.
Defined.

(** X15: adding a task and then deleting the last position undoes the
    addition: both calls return normally and the sequence is the one
    before, for every store, description and keyword arguments. *)
Theorem add_then_delete_last_restores :
  ∀ (st : St) (d : string) (kw : kwargs),
    let added := add_task d kw st in
    let n := Z.of_nat (length (tasks (self st))) in
    let removed := delete_task (n + 1) (snd added) in
    fst added = Val tt
    ∧ fst removed = Val tt
    ∧ self (snd removed) = self st
    ∧ (unwritable (world st) !! filename (self st) = None →
       files (world (snd removed)) !! filename (self st)
       = Some (JsonText (JList (map task_record (tasks (self st)))))).
Proof.
  intros [[fn ts] w] d kw. simpl.
  rewrite add_task_run. simpl.
  set (t := Task_call (now w) d kw).
  assert (Ht : task_ok t) by apply Task_init_ok.
  assert (Hpos : py_position (ts ++ [t])%list (Z.of_nat (length ts) + 1 - 1)
                 = Some (length ts)).
  { rewrite py_position_front by (rewrite length_app; simpl; lia). f_equal. lia. }
  assert (Hk : (ts ++ [t])%list !! length ts = Some t) by (by apply list_lookup_middle).
  rewrite (delete_task_at fn _ _ _ _ t Hpos Hk Ht). simpl.
  rewrite delete_middle, app_nil_r.
  split_and!; try done.
  intros Hwrite. unfold saved_world, printed. simpl. rewrite Hwrite. simpl.
  rewrite Hwrite. simpl. by rewrite lookup_insert_eq.
Qed.

Lemma add_then_delete_last_restores_witness :
  files (world (snd (delete_task 2 (snd (add_task "Pay rent" no_kwargs
     (mkSt (mkTodoList "tasks.json" [milk]) quiet_world)))))) !! "tasks.json"
  = Some (JsonText (JList [task_record milk])).
Proof.
  destruct (add_then_delete_last_restores
              (mkSt (mkTodoList "tasks.json" [milk]) quiet_world) "Pay rent" no_kwargs)
    as (_ & _ & _ & Hfile).
  exact (Hfile eq_refl).
Defined.

(** * Properties of the menu *)

(** ** Strings *)

Lemma rstrip_idemp s : rstrip (rstrip s) = rstrip s.
Proof.
  induction s as [| c s IH]; simpl; [done |].
  destruct (rstrip s) as [| k ks] eqn:Hs.
  - destruct (is_space c) eqn:Hc; simpl; [done |]. by rewrite Hc.
  - change (rstrip (String c (String k ks))) with
      (match rstrip (String k ks) with
       | EmptyString => if is_space c then EmptyString else String c EmptyString
       | kept => String c kept
       end).
    by rewrite IH.
Qed.

Lemma rstrip_head c s :
  is_space c = false → ∃ s', rstrip (String c s) = String c s'.
Proof.
  intros Hc. simpl. destruct (rstrip s); [rewrite Hc |]; eauto.
Qed.

Lemma lstrip_head s :
  lstrip s = EmptyString ∨ ∃ c s', lstrip s = String c s' ∧ is_space c = false.
Proof.
  induction s as [| c s IH]; simpl; [by left |].
  destruct (is_space c) eqn:Hc; [done | right; eauto].
Qed.

Lemma strip_idemp s : strip (strip s) = strip s.
Proof.
  unfold strip. destruct (lstrip_head s) as [-> | (c & s' & -> & Hc)]; [done |].
  destruct (rstrip_head c s' Hc) as [s'' Hs].
  rewrite Hs at 1. simpl lstrip. rewrite Hc, <- Hs. apply rstrip_idemp.
Qed.

Lemma str_truthy_true s : str_truthy s = true ↔ s ≠ EmptyString.
Proof. destruct s; simpl; split; try done. Qed.

Lemma str_truthy_false s : str_truthy s = false ↔ s = EmptyString.
Proof. destruct s; simpl; split; try done. Qed.

(** ** Runs of the menu's functions *)

Lemma call_print_run line c :
  call (print line) c
  = (CVal tt, mkConsole (stdin c) (mkSt (self (store c)) (printed line (world (store c))))).
Proof. destruct c as [lines [s w]]. reflexivity. Qed.

Lemma input_run prompt line rest st :
  ascii_only line = true →
  input prompt (mkConsole (line :: rest) st)
  = (CVal line, mkConsole rest (mkSt (self st) (printed prompt (world st)))).
Proof.
  intros Hline. unfold input, cbind. rewrite call_print_run. simpl.
  unfold read_line. simpl. by rewrite Hline.
Qed.


Lemma retry_description_done lines d st :
  d ≠ EmptyString → retry_description lines d st = (CVal d, mkConsole lines st).
Proof. intros Hd. destruct d; [done |]. by destruct lines. Qed.

Lemma retry_description_run blanks d rest s w :
  Forall blank_line blanks →
  ascii_only d = true → strip d ≠ EmptyString →
  retry_description (blanks ++ d :: rest) EmptyString (mkSt s w)
  = (CVal (strip d),
     mkConsole rest
       (mkSt s (with_stdout
                  (stdout w
                   ++ mjoin (replicate (S (length blanks))
                               [description_empty; ask_description])) w))).
Proof.
  intros Hblanks Hd Hnonempty. revert w.
  induction Hblanks as [| b blanks [Hb Hstrip] _ IH]; intros w.
  - simpl. rewrite Hd. rewrite retry_description_done by done.
    unfold with_stdout, printed. simpl. by rewrite <- app_assoc.
  - simpl app. cbn [retry_description str_truthy negb].
    rewrite Hb, Hstrip.
    change ((print ask_description (print description_empty (mkSt s w)).2).2)
      with (mkSt s (printed ask_description (printed description_empty w))).
    rewrite IH. unfold with_stdout, printed. simpl.
    by rewrite <- !app_assoc.
Qed.

Lemma py_int_stripped s :
  (String.length (strip s) ≤ max_str_digits)%nat →
  py_int (strip s)
  = match int_literal (strip s) with
    | Some n => CVal n
    | None => CRaise ValueError
    end.
Proof.
  intros Hlen. unfold py_int. rewrite strip_idemp.
  rewrite bool_decide_eq_true_2 by done. simpl.
  destruct (int_literal (strip s)); [| done].
  by rewrite bool_decide_eq_true_2.
Qed.

Lemma get_task_details_run :
  ∀ (blanks : list string) (d dd pr : string) (rest : list string) (st : St),
    Forall blank_line blanks →
    ascii_only d = true → strip d ≠ EmptyString →
    ascii_only dd = true →
    ascii_only pr = true →
    (String.length (strip pr) ≤ max_str_digits)%nat →
    get_task_details (mkConsole (blanks ++ d :: dd :: pr :: rest) st)
    = (CVal (mkDetails (strip d) (due_date_of_text (strip dd))
               (priority_of_text (strip pr))),
       mkConsole rest
         (mkSt (self st)
            (with_stdout
               (stdout (world st) ++ description_dialogue (length blanks))
               (world st)))).
Proof.
  intros blanks d dd pr rest [s w] Hblanks Hd Hnonempty Hdd Hpr Hlen. simpl.
  assert (Hfirst : ∀ w' tail,
            (description <- (λ c, retry_description (stdin c) (strip d) (store c));;
             tail description)%console (mkConsole (dd :: pr :: rest) (mkSt s w'))
            = tail (strip d) (mkConsole (dd :: pr :: rest) (mkSt s w'))
            :> cres task_details * Console).
  { intros w' tail. unfold cbind. cbn [stdin store].
    by rewrite retry_description_done. }
  unfold get_task_details, description_dialogue.
  destruct blanks as [| b blanks].
  - simpl app. unfold cbind at 1. rewrite input_run by done.
    rewrite Hfirst. unfold cbind at 1. rewrite input_run by done.
    unfold cbind at 1. rewrite input_run by done.
    unfold cbind at 1, except_ValueError.
    unfold priority_of_text, due_date_of_text.
    destruct (str_truthy (strip pr)) eqn:Hp.
    + unfold clift. rewrite py_int_stripped by done.
      destruct (int_literal (strip pr)); simpl; unfold cret, with_stdout, printed;
        simpl; by rewrite <- !app_assoc.
    + apply str_truthy_false in Hp. rewrite Hp. simpl.
      unfold cret, with_stdout, printed. simpl. by rewrite <- !app_assoc.
  - apply Forall_cons in Hblanks as [[Hb Hstrip] Hblanks].
    simpl app. unfold cbind at 1. rewrite input_run by done.
    unfold cbind at 1. simpl stdin. simpl store. rewrite Hstrip.
    rewrite (retry_description_run blanks d (dd :: pr :: rest)) by done.
    unfold cbind at 1. rewrite input_run by done.
    unfold cbind at 1. rewrite input_run by done.
    unfold cbind at 1, except_ValueError.
    unfold priority_of_text, due_date_of_text.
    destruct (str_truthy (strip pr)) eqn:Hp.
    + unfold clift. rewrite py_int_stripped by done.
      destruct (int_literal (strip pr)); simpl; unfold cret, with_stdout, printed;
        simpl; by rewrite <- !app_assoc.
    + apply str_truthy_false in Hp. rewrite Hp. simpl.
      unfold cret, with_stdout, printed. simpl. by rewrite <- !app_assoc.
Qed.

(** X16: what [get_task_details] makes of the lines typed.  Blank
    lines before the description are answered with the complaint and
    the prompt again; the first line that is not blank gives the
    description, stripped; the next gives the due date, absent when
    blank; the next gives the priority: the integer typed, and 2 when
    the line is blank or no integer literal. *)
Theorem get_task_details_reads :
  ∀ (blanks : list string) (d dd pr : string) (rest : list string) (st : St),
    Forall blank_line blanks →
    ascii_only d = true → strip d ≠ EmptyString →
    ascii_only dd = true →
    ascii_only pr = true →
    (String.length (strip pr) ≤ max_str_digits)%nat →
    get_task_details (mkConsole (blanks ++ d :: dd :: pr :: rest) st)
    = (CVal (mkDetails (strip d) (due_date_of_text (strip dd))
               (priority_of_text (strip pr))),
       mkConsole rest
         (mkSt (self st)
            (with_stdout
               (stdout (world st) ++ description_dialogue (length blanks))
               (world st)))).
Proof.
  intros blanks d dd pr rest st Hblanks Hd Hne Hdd Hpr Hlen.
  by apply get_task_details_run.
Qed.

Lemma get_task_details_reads_witness :
  fst (get_task_details
         (mkConsole ["   "; " Buy milk "; EmptyString; "high"; "5"]
            (mkSt (mkTodoList "tasks.json" []) quiet_world)))
  = CVal (mkDetails "Buy milk" None 2).
Proof.
  assert (Hblanks : Forall blank_line ["   "]) by (repeat constructor).
  assert (Hlen : (String.length (strip "high") ≤ max_str_digits)%nat)
    by (vm_compute; lia).
  assert (Hd : strip " Buy milk " ≠ EmptyString) by (vm_compute; discriminate).
  pose proof (get_task_details_reads ["   "] " Buy milk " EmptyString "high" ["5"]
                (mkSt (mkTodoList "tasks.json" []) quiet_world)
                Hblanks eq_refl Hd eq_refl eq_refl Hlen) as Hrun.
  cbn [app] in Hrun. rewrite Hrun. reflexivity.
Defined.

(** ** What the menu keeps *)

Lemma cbind_CVal {A B} (m : C A) (k : A → C B) c b c' :
  cbind m k c = (CVal b, c') →
  ∃ a c1, m c = (CVal a, c1) ∧ k a c1 = (CVal b, c').
Proof.
  unfold cbind. destruct (m c) as [[a | e |] c1]; try discriminate. eauto.
Qed.

Lemma input_CVal prompt c line c1 :
  input prompt c = (CVal line, c1) →
  stdin c = line :: stdin c1
  ∧ ascii_only line = true
  ∧ store c1 = mkSt (self (store c)) (printed prompt (world (store c))).
Proof.
  unfold input, cbind. rewrite call_print_run. unfold read_line. simpl.
  destruct (stdin c) as [| l rest]; [discriminate |].
  destruct (ascii_only l) eqn:Hl; [| discriminate].
  by intros [= <- <-].
Qed.

Lemma printed_output_only s w line :
  output_only (mkSt s w) (mkSt s (printed line w)).
Proof. unfold printed. repeat split. simpl. by apply prefix_app_r. Qed.

Global Instance any_store_preorder : PreOrder any_store.
Proof. by split. Qed.

Global Instance keeps_menu_ok_preorder : PreOrder keeps_menu_ok.
Proof.
  split.
  - by intros st H.
  - intros st1 st2 st3 H12 H23 H. by apply H23, H12.
Qed.

Global Instance on_store_preorder (R : St → St → Prop) `{!PreOrder R} :
  PreOrder (on_store R).
Proof.
  split.
  - intros c. by split.
  - intros c1 c2 c3 [Hs HR] [Hs' HR']. split; by etrans.
Qed.

Section menu_preserved.
Context (R : St → St → Prop) `{!PreOrder R}.
Context (Hout : ∀ st st', output_only st st' → R st st').

Lemma cpreserves_cret {A} (a : A) : cpreserves (on_store R) (cret a).
Proof. intros c. simpl. reflexivity. Qed.

Lemma cpreserves_clift {A} (r : cres A) : cpreserves (on_store R) (clift r).
Proof. intros c. simpl. reflexivity. Qed.

Lemma cpreserves_cbind {A B} (m : C A) (k : A → C B) :
  cpreserves (on_store R) m →
  (∀ a c c', m c = (CVal a, c') → cpreserves (on_store R) (k a)) →
  cpreserves (on_store R) (cbind m k).
Proof.
  intros Hm Hk c. unfold cbind. specialize (Hm c).
  destruct (m c) as [[a | e |] c1] eqn:Hrun; simpl in *; try done.
  etrans; [apply Hm | by eapply Hk].
Qed.

Lemma cpreserves_call {A} (m : M A) :
  preserves R m → cpreserves (on_store R) (call m).
Proof.
  intros Hm c. unfold call. specialize (Hm (store c)).
  destruct (m (store c)) as [[a | e |] st']; simpl in *; by split.
Qed.

Lemma cpreserves_print line : cpreserves (on_store R) (call (print line)).
Proof. apply cpreserves_call. intros st. apply Hout, print_output_only. Qed.

Lemma cpreserves_read_line : cpreserves (on_store R) read_line.
Proof.
  intros c. unfold read_line. destruct (stdin c) as [| line rest] eqn:Hlines; simpl.
  - reflexivity.
  - split; simpl; [| reflexivity]. rewrite Hlines. by apply suffix_cons_r.
Qed.

Lemma cpreserves_input prompt : cpreserves (on_store R) (input prompt).
Proof.
  apply cpreserves_cbind; [apply cpreserves_print |].
  intros _ _ _ _. apply cpreserves_read_line.
Qed.

Lemma cpreserves_except_ValueError {A} (body handler : C A) :
  cpreserves (on_store R) body → cpreserves (on_store R) handler →
  cpreserves (on_store R) (except_ValueError body handler).
Proof.
  intros Hbody Hhandler c. unfold except_ValueError. specialize (Hbody c).
  destruct (body c) as [[a | e |] c1]; simpl in *; try done.
  destruct e; simpl; try done. etrans; [apply Hbody | apply Hhandler].
Qed.

Lemma retry_description_preserves lines d st :
  on_store R (mkConsole lines st) (snd (retry_description lines d st)).
Proof.
  revert d st. induction lines as [| line lines IH]; intros d [s w].
  - simpl. destruct (str_truthy d); simpl; [reflexivity |].
    split; [done |]. simpl. apply Hout.
    etrans; apply printed_output_only.
  - cbn [retry_description].
    destruct (str_truthy d); cbn [negb]; [reflexivity |].
    change ((print ask_description (print description_empty (mkSt s w)).2).2)
      with (mkSt s (printed ask_description (printed description_empty w))).
    assert (Hstep : on_store R (mkConsole (line :: lines) (mkSt s w))
              (mkConsole lines
                 (mkSt s (printed ask_description (printed description_empty w))))).
    { split; simpl; [by apply suffix_cons_r |].
      apply Hout. etrans; apply printed_output_only. }
    destruct (ascii_only line); [| done].
    etrans; [apply Hstep | apply IH].
Qed.

Lemma cpreserves_display_menu : cpreserves (on_store R) display_menu.
Proof.
  unfold display_menu.
  repeat (apply cpreserves_cbind; [apply cpreserves_print | intros _ _ _ _]).
  apply cpreserves_print.
Qed.

Lemma cpreserves_get_task_details : cpreserves (on_store R) get_task_details.
Proof.
  unfold get_task_details.
  apply cpreserves_cbind; [apply cpreserves_input | intros line _ _ _].
  apply cpreserves_cbind.
  { intros [lines st]. apply retry_description_preserves. }
  intros d _ _ _.
  apply cpreserves_cbind; [apply cpreserves_input | intros line2 _ _ _].
  apply cpreserves_cbind; [apply cpreserves_input | intros line3 _ _ _].
  apply cpreserves_cbind; [| intros; apply cpreserves_cret].
  apply cpreserves_except_ValueError; [| apply cpreserves_cret].
  destruct (str_truthy (strip line3)); [apply cpreserves_clift | apply cpreserves_cret].
Qed.
End menu_preserved.

Lemma retry_description_CVal lines d st d' c' :
  retry_description lines d st = (CVal d', c') →
  d' ≠ EmptyString ∧ (strip d = d → strip d' = d').
Proof.
  revert d st. induction lines as [| line lines IH]; intros d st.
  - simpl. destruct d; simpl; [discriminate |]. by intros [= <- <-].
  - cbn [retry_description]. destruct d; cbn [str_truthy negb].
    + destruct (ascii_only line); [| discriminate].
      intros Hrun. apply IH in Hrun as [Hne Hstrip].
      split; [done |]. intros _. apply Hstrip, strip_idemp.
    + by intros [= <- <-].
Qed.

Lemma get_task_details_CVal :
  ∀ (c : Console) (details : task_details) (c' : Console),
    get_task_details c = (CVal details, c') →
    td_description details ≠ EmptyString
    ∧ strip (td_description details) = td_description details
    ∧ td_due_date details ≠ Some EmptyString
    ∧ (length (stdin c') + 3 ≤ length (stdin c))%nat
    ∧ output_only (store c) (store c').
Proof.
  intros c details c' Hrun.
  pose proof (cpreserves_get_task_details output_only (λ _ _ H, H) c) as [_ Hstore].
  rewrite Hrun in Hstore. simpl in Hstore.
  unfold get_task_details in Hrun.
  apply cbind_CVal in Hrun as (line & c1 & Hin1 & Hrun).
  apply cbind_CVal in Hrun as (d & c2 & Hretry & Hrun).
  apply cbind_CVal in Hrun as (line2 & c3 & Hin2 & Hrun).
  apply cbind_CVal in Hrun as (line3 & c4 & Hin3 & Hrun).
  apply cbind_CVal in Hrun as (p & c5 & Hp & Hrun).
  unfold cret in Hrun. injection Hrun as <- <-. simpl.
  apply input_CVal in Hin1 as (Hl1 & _ & _).
  apply input_CVal in Hin2 as (Hl2 & _ & _).
  apply input_CVal in Hin3 as (Hl3 & _ & _).
  pose proof (retry_description_preserves any_store (λ _ _ _, I)
                (stdin c1) (strip line) (store c1)) as [Hsuffix _].
  rewrite Hretry in Hsuffix. simpl in Hsuffix. apply suffix_length in Hsuffix.
  apply retry_description_CVal in Hretry as [Hne Hstrip].
  assert (Hc5 : stdin c5 = stdin c4).
  { unfold except_ValueError, clift, cret in Hp.
    destruct (str_truthy (strip line3)); [| by injection Hp as _ <-].
    destruct (py_int (strip line3)) as [n | e |]; try discriminate.
    - by injection Hp as _ <-.
    - destruct e; try discriminate. by injection Hp as _ <-. }
  split_and!; try done.
  - apply Hstrip, strip_idemp.
  - destruct (str_truthy (strip line2)) eqn:Hdd; [| done].
    intros [= Heq]. rewrite Heq in Hdd. discriminate Hdd.
  - rewrite Hc5, Hl1, Hl2, Hl3 in *. simpl in *. lia.
Qed.

(** X17: whenever [get_task_details] returns, the description it
    returns is not empty and has no white space around it, the due date
    is absent or not empty, at least three lines were read, and nothing
    but the output has changed. *)
Theorem get_task_details_returns_a_description :
  ∀ (c : Console) (details : task_details) (c' : Console),
    get_task_details c = (CVal details, c') →
    td_description details ≠ EmptyString
    ∧ strip (td_description details) = td_description details
    ∧ td_due_date details ≠ Some EmptyString
    ∧ (length (stdin c') + 3 ≤ length (stdin c))%nat
    ∧ output_only (store c) (store c').
Proof. apply get_task_details_CVal. Qed.

Lemma get_task_details_returns_a_description_witness :
  td_description (mkDetails "Buy milk" None 2) ≠ EmptyString.
Proof.
  apply (get_task_details_returns_a_description
           (mkConsole ["   "; " Buy milk "; EmptyString; "high"; "5"]
              (mkSt (mkTodoList "tasks.json" []) quiet_world))
           (mkDetails "Buy milk" None 2)
           (snd (get_task_details
                   (mkConsole ["   "; " Buy milk "; EmptyString; "high"; "5"]
                      (mkSt (mkTodoList "tasks.json" []) quiet_world))))).
  reflexivity.
Defined.

Section dispatch_preserved.
Context (R : St → St → Prop) `{!PreOrder R}.
Context (Hout : ∀ st st', output_only st st' → R st st').
Context (Hadd : ∀ d kw, d ≠ EmptyString → preserves R (add_task d kw)).
Context (Hmark : ∀ p, preserves R (mark_completed p)).
Context (Hdelete : ∀ p, preserves R (delete_task p)).

Lemma cpreserves_view show_completed priority_filter :
  cpreserves (on_store R) (call (view_tasks show_completed priority_filter)).
Proof.
  apply cpreserves_call; try apply _. intros st. apply Hout, view_tasks_output_only.
Qed.

Lemma cpreserves_task_number (op : Z → M unit) line :
  (∀ p, preserves R (op p)) →
  cpreserves (on_store R)
    (if isdigit (strip line)
     then cbind (clift (py_int (strip line))) (λ n, call (op n))
     else call (print invalid_number)).
Proof.
  intros Hop. destruct (isdigit (strip line)); [| by apply cpreserves_print].
  apply cpreserves_cbind; try apply _; try assumption; [by apply cpreserves_clift |].
  intros n _ _ _. by apply cpreserves_call.
Qed.

Lemma cpreserves_dispatch choice : cpreserves (on_store R) (dispatch choice).
Proof.
  unfold dispatch. repeat case_bool_decide.
  - apply cpreserves_cbind; try apply _; try assumption; [by apply cpreserves_get_task_details |].
    intros details c c' Hrun. apply get_task_details_CVal in Hrun as (Hd & _).
    apply cpreserves_cbind; try apply _; try assumption; [| intros; by apply cpreserves_cret].
    apply cpreserves_call; try apply _. by apply Hadd.
  - apply cpreserves_cbind; try apply _; try assumption; [by apply cpreserves_input | intros line _ _ _].
    apply cpreserves_cbind; try apply _; try assumption; [by apply cpreserves_input | intros line2 _ _ _].
    apply cpreserves_cbind; try apply _; try assumption; [| intros pf _ _ _].
    { case_bool_decide; [| by apply cpreserves_cret].
      apply cpreserves_cbind; try apply _; try assumption; [by apply cpreserves_clift |].
      intros; by apply cpreserves_cret. }
    apply cpreserves_cbind; try apply _; try assumption; [by apply cpreserves_view |].
    intros; by apply cpreserves_cret.
  - apply cpreserves_cbind; try apply _; try assumption; [by apply cpreserves_view | intros _ _ _ _].
    apply cpreserves_cbind; try apply _; try assumption; [by apply cpreserves_input | intros line _ _ _].
    apply cpreserves_cbind; try apply _; try assumption; [| intros; by apply cpreserves_cret].
    by apply cpreserves_task_number.
  - apply cpreserves_cbind; try apply _; try assumption; [by apply cpreserves_view | intros _ _ _ _].
    apply cpreserves_cbind; try apply _; try assumption; [by apply cpreserves_input | intros line _ _ _].
    apply cpreserves_cbind; try apply _; try assumption; [| intros; by apply cpreserves_cret].
    by apply cpreserves_task_number.
  - apply cpreserves_cbind; try apply _; try assumption; [by apply cpreserves_print |].
    intros; by apply cpreserves_cret.
  - apply cpreserves_cbind; try apply _; try assumption; [by apply cpreserves_print |].
    intros; by apply cpreserves_cret.
Qed.

Lemma cpreserves_menu_turn : cpreserves (on_store R) menu_turn.
Proof.
  unfold menu_turn.
  apply cpreserves_cbind; try apply _; try assumption; [by apply cpreserves_display_menu | intros _ _ _ _].
  apply cpreserves_cbind; try apply _; try assumption; [by apply cpreserves_input | intros line _ _ _].
  apply cpreserves_dispatch.
Qed.

Lemma main_loop_preserves fuel c r c' :
  main_loop fuel c = Some (r, c') → on_store R c c'.
Proof.
  revert c. induction fuel as [| fuel IH]; intros c; simpl; [discriminate |].
  pose proof (cpreserves_menu_turn c) as Hturn.
  destruct (menu_turn c) as [[[|] | e |] c1]; simpl in Hturn.
  - intros Hrest. etrans; [apply Hturn | by apply IH].
  - by intros [= <- <-].
  - by intros [= <- <-].
  - by intros [= <- <-].
Qed.
End dispatch_preserved.

Lemma display_menu_run c :
  ∃ st', display_menu c = (CVal tt, mkConsole (stdin c) st')
         ∧ output_only (store c) st'.
Proof.
  destruct c as [lines [s w]]. eexists. split; [reflexivity |].
  unfold printed. repeat split. simpl. repeat apply prefix_app_r. done.
Qed.


Lemma input_takes_a_line {A} prompt (k : string → C A) c a c' :
  cbind (input prompt) k c = (CVal a, c') →
  ∃ line rest st',
    stdin c = line :: rest
    ∧ output_only (store c) st'
    ∧ k line (mkConsole rest st') = (CVal a, c').
Proof.
  intros Hrun. apply cbind_CVal in Hrun as (line & c1 & Hin & Hrun).
  apply input_CVal in Hin as (Hlines & _ & Hstore).
  exists line, (stdin c1), (store c1). split; [done |]. split.
  - rewrite Hstore. destruct (store c) as [s w]. apply printed_output_only.
  - by destruct c1.
Qed.

Lemma menu_turn_takes_a_line c b c' :
  menu_turn c = (CVal b, c') → (length (stdin c') < length (stdin c))%nat.
Proof.
  unfold menu_turn. intros Hrun.
  apply cbind_CVal in Hrun as ([] & c1 & Hmenu & Hrun).
  destruct (display_menu_run c) as (st1 & Hmenu' & _).
  rewrite Hmenu' in Hmenu. injection Hmenu as <-.
  apply input_takes_a_line in Hrun as (line & rest & st2 & Hlines & _ & Hrun).
  simpl in Hlines. rewrite Hlines. simpl.
  pose proof (cpreserves_dispatch any_store (λ _ _ _, I) (λ _ _ _ _, I)
                (λ _ _, I) (λ _ _, I) (strip line) (mkConsole rest st2))
    as [Hsuffix _].
  rewrite Hrun in Hsuffix. simpl in Hsuffix.
  apply suffix_length in Hsuffix. lia.
Qed.

Lemma main_loop_ends fuel c :
  (length (stdin c) < fuel)%nat → is_Some (main_loop fuel c).
Proof.
  revert c. induction fuel as [| fuel IH]; intros c Hlt; [lia |]. simpl.
  destruct (menu_turn c) as [[[|] | e |] c1] eqn:Hturn; try done.
  apply IH. apply menu_turn_takes_a_line in Hturn. lia.
Qed.

Lemma main_loop_more_fuel fuel fuel' c x :
  main_loop fuel c = Some x → (fuel ≤ fuel')%nat → main_loop fuel' c = Some x.
Proof.
  revert fuel' c. induction fuel as [| fuel IH]; intros fuel' c; [discriminate |].
  destruct fuel' as [| fuel']; [lia |]. simpl.
  destruct (menu_turn c) as [[[|] | e |] c1]; try done.
  intros Hrun Hle. apply IH; [done | lia].
Qed.

Lemma dispatch_break choice c c' :
  dispatch choice c = (CVal false, c') →
  last (stdout (world (store c'))) = Some "Goodbye!".
Proof.
  unfold dispatch. repeat case_bool_decide; intros Hrun.
  all: try (repeat (apply cbind_CVal in Hrun as (? & ? & _ & Hrun));
            discriminate Hrun).
  apply cbind_CVal in Hrun as ([] & c1 & Hprint & Hrun).
  rewrite call_print_run in Hprint. injection Hprint as <-.
  injection Hrun as <-. simpl. by rewrite last_snoc.
Qed.

Lemma main_loop_returns fuel c c' :
  main_loop fuel c = Some (CVal tt, c') →
  last (stdout (world (store c'))) = Some "Goodbye!".
Proof.
  revert c. induction fuel as [| fuel IH]; intros c; simpl; [discriminate |].
  destruct (menu_turn c) as [[[|] | e |] c1] eqn:Hturn; try discriminate.
  - apply IH.
  - intros [= <-]. unfold menu_turn in Hturn.
    apply cbind_CVal in Hturn as (? & ? & _ & Hturn).
    apply cbind_CVal in Hturn as (? & ? & _ & Hturn).
    by eapply dispatch_break.
Qed.

(** X18: [main] always ends.  Whatever finite list of lines is typed
    and whatever the world, one turn more than there are lines is enough
    for the loop, and more turns change nothing; [main] ends by
    returning, by an exception, or outside the model, having taken lines
    from the front only; when it returns, the last line printed is
    ["Goodbye!"]. *)
Theorem main_always_ends :
  (∀ (lines : list string) (w : World),
     ∃ r c', main lines w = Some (r, c')
             ∧ stdin c' `suffix_of` lines
             ∧ (r = CVal tt →
                last (stdout (world (store c'))) = Some "Goodbye!"))
  ∧ (∀ (c : Console) (fuel : nat),
       (length (stdin c) < fuel)%nat →
       main_loop fuel c = main_loop (S (length (stdin c))) c).
Proof.
  split.
  - intros lines w. unfold main.
    destruct (TodoList_init "tasks.json" w) as [[[] | e |] st];
      try (eexists _, _; split; [done |]; split; [simpl; reflexivity | discriminate]).
    destruct (main_loop_ends (S (length lines)) (mkConsole lines st))
      as [[r c'] Hrun]; [simpl; lia |].
    exists r, c'. split; [done |]. split.
    + apply (main_loop_preserves any_store (λ _ _ _, I) (λ _ _ _ _, I)
               (λ _ _, I) (λ _ _, I)) in Hrun as [Hsuffix _]. done.
    + intros ->. by eapply main_loop_returns.
  - intros c fuel Hlt.
    destruct (main_loop_ends (S (length (stdin c))) c) as [x Hrun]; [lia |].
    rewrite Hrun. eapply main_loop_more_fuel; [done | lia].
Qed.

Lemma main_always_ends_witness :
  main_loop 7%nat (mkConsole ["9"; "5"; "1"] empty_store)
  = main_loop 4%nat (mkConsole ["9"; "5"; "1"] empty_store).
Proof.
  apply (proj2 main_always_ends (mkConsole ["9"; "5"; "1"] empty_store) 7%nat).
  simpl. lia.
Defined.

(** ** Descriptions *)

Lemma output_only_keeps_menu_ok st st' : output_only st st' → keeps_menu_ok st st'.
Proof.
  intros (Hs & _). unfold keeps_menu_ok, menu_ok, store_ok, described.
  by rewrite Hs.
Qed.

Lemma add_task_keeps_menu_ok d kw :
  d ≠ EmptyString → preserves keeps_menu_ok (add_task d kw).
Proof.
  intros Hd [[fn ts] w] [Hok Hdesc]. split; [by apply add_task_ok |].
  unfold described in *. rewrite add_task_run. simpl in *.
  apply Forall_app. split; [done |]. constructor; [| done].
  unfold Task_call.
  by destruct (Task_init_fields (now w) d (kw_due_date kw)
                 (default 2 (kw_priority kw)) (default false (kw_completed kw)))
    as (-> & _).
Qed.

Lemma mark_completed_keeps_menu_ok p : preserves keeps_menu_ok (mark_completed p).
Proof.
  intros [[fn ts] w] [Hok Hdesc]. split; [by apply mark_completed_ok |].
  unfold store_ok, described in *. simpl in *.
  destruct (py_position ts (p - 1)) as [k |] eqn:Hpos.
  - destruct (lookup_lt_is_Some_2 ts k (py_position_Some _ _ _ Hpos)) as [t Hk].
    assert (Ht : task_ok t) by (by eapply Forall_lookup_1).
    rewrite (mark_completed_at fn ts w p k t Hpos Hk Ht). simpl.
    apply Forall_insert; [done |]. simpl.
    by eapply (Forall_lookup_1 _ _ _ _ Hdesc).
  - by rewrite mark_completed_outside.
Qed.

Lemma delete_task_keeps_menu_ok p : preserves keeps_menu_ok (delete_task p).
Proof.
  intros [[fn ts] w] [Hok Hdesc]. split; [by apply delete_task_ok |].
  unfold store_ok, described in *. simpl in *.
  destruct (py_position ts (p - 1)) as [k |] eqn:Hpos.
  - destruct (lookup_lt_is_Some_2 ts k (py_position_Some _ _ _ Hpos)) as [t Hk].
    assert (Ht : task_ok t) by (by eapply Forall_lookup_1).
    rewrite (delete_task_at fn ts w p k t Hpos Hk Ht). simpl.
    by apply Forall_delete.
  - destruct (index_sized (p - 1)) eqn:Hsz;
      [by rewrite delete_task_outside | by rewrite delete_task_overflow].
Qed.

(** X19: through the menu no task without a description gets into the
    store.  If every task has a valid priority and a description that
    is not empty, so it is after any number of turns of the loop,
    however the run ends; in particular after [main] started where no
    file exists. *)
Theorem menu_keeps_tasks_described :
  (∀ (fuel : nat) (c : Console) (r : cres unit) (c' : Console),
     menu_ok (store c) → main_loop fuel c = Some (r, c') → menu_ok (store c'))
  ∧ (∀ (lines : list string) (w : World) (r : cres unit) (c' : Console),
       files w !! "tasks.json" = None →
       main lines w = Some (r, c') → menu_ok (store c')).
Proof.
  assert (Hloop : ∀ fuel c r c',
            menu_ok (store c) → main_loop fuel c = Some (r, c') → menu_ok (store c')).
  { intros fuel c r c' Hok Hrun.
    apply (main_loop_preserves keeps_menu_ok output_only_keeps_menu_ok
             add_task_keeps_menu_ok mark_completed_keeps_menu_ok
             delete_task_keeps_menu_ok) in Hrun as [_ Hkeeps].
    by apply Hkeeps. }
  split; [done |].
  intros lines w r c' Hfile. unfold main, TodoList_init.
  rewrite load_tasks_no_file by done.
  apply Hloop. split; by constructor.
Qed.

Lemma menu_keeps_tasks_described_witness :
  menu_ok (store (snd (default (CDynamic, mkConsole [] empty_store)
     (main ["1"; EmptyString; "Buy milk"; EmptyString; "1"; "5"] quiet_world)))).
Proof.
  destruct (main ["1"; EmptyString; "Buy milk"; EmptyString; "1"; "5"] quiet_world)
    as [[r c'] |] eqn:Hrun; [| by vm_compute in Hrun].
  simpl.
  exact (proj2 menu_keeps_tasks_described
           ["1"; EmptyString; "Buy milk"; EmptyString; "1"; "5"] quiet_world r c'
           eq_refl Hrun).
Defined.

(** ** The choices of the menu *)

Lemma view_tasks_Val st show_completed priority_filter :
  store_ok st → priority_filter ≠ Some 0 →
  fst (view_tasks show_completed priority_filter st) = Val tt.
Proof.
  destruct st as [s w]. unfold store_ok. simpl. intros Hok Hpf.
  unfold view_tasks, bind at 1. rewrite print_run.
  unfold bind at 1. unfold get_tasks. simpl.
  destruct (tasks s) as [| t ts'] eqn:Hts; [by rewrite print_run |].
  unfold bind. rewrite view_loop_run by done. by rewrite print_run.
Qed.

Lemma call_view c show_completed priority_filter :
  store_ok (store c) → priority_filter ≠ Some 0 →
  ∃ st', call (view_tasks show_completed priority_filter) c
         = (CVal tt, mkConsole (stdin c) st')
         ∧ output_only (store c) st'.
Proof.
  intros Hok Hpf.
  pose proof (view_tasks_Val (store c) show_completed priority_filter Hok Hpf) as Hval.
  pose proof (view_tasks_output_only show_completed priority_filter (store c)) as Hout.
  unfold call.
  destruct (view_tasks show_completed priority_filter (store c)) as [r st'].
  simpl in *. subst r. eauto.
Qed.

Lemma literal_digits_all_digits s b acc :
  all_digits s = true → 0 ≤ acc → s ≠ EmptyString ∨ b = true →
  ∃ n, literal_digits b acc s = Some n ∧ 0 ≤ n.
Proof.
  revert b acc. induction s as [| c s IH]; intros b acc Hall Hacc Hne; simpl.
  - destruct Hne as [? | ->]; [done | eauto].
  - simpl in Hall. apply andb_true_iff in Hall as [Hc Hs]. rewrite Hc.
    apply IH; [done | | by right].
    unfold digit_value, is_digit in *.
    apply andb_true_iff in Hc as [Hlo _]. apply N.leb_le in Hlo. lia.
Qed.

Lemma isdigit_int_literal s :
  isdigit s = true → ∃ n, int_literal s = Some n ∧ 0 ≤ n.
Proof.
  unfold isdigit. intros Hs. apply andb_true_iff in Hs as [Hne Hall].
  apply str_truthy_true in Hne.
  assert (Hlit : int_literal s = literal_digits false 0 s).
  { destruct s as [| c s]; [done |]. simpl in Hall.
    apply andb_true_iff in Hall as [Hc _].
    destruct c as [[] [] [] [] [] [] [] []]; try discriminate Hc; reflexivity. }
  rewrite Hlit. apply literal_digits_all_digits; [done | lia | by left].
Qed.

Lemma saved_world_files s w w' :
  files w' = files w → unwritable w' = unwritable w →
  files (saved_world s w') = files (saved_world s w).
Proof.
  intros Hf Hu. unfold saved_world. rewrite Hu.
  destruct (unwritable w !! filename s); simpl; by rewrite Hf.
Qed.

Lemma mark_completed_whatever_printed st st' p :
  store_ok st → output_only st st' →
  fst (mark_completed p st') = Val tt
  ∧ self (snd (mark_completed p st')) = self (snd (mark_completed p st))
  ∧ files (world (snd (mark_completed p st')))
    = files (world (snd (mark_completed p st))).
Proof.
  destruct st as [[fn ts] w], st' as [s' w']. unfold store_ok. simpl.
  intros Hok (Hs & Hf & _ & Hu & _). simpl in *. subst s'.
  destruct (py_position ts (p - 1)) as [k |] eqn:Hpos.
  - destruct (lookup_lt_is_Some_2 ts k (py_position_Some _ _ _ Hpos)) as [t Hk].
    assert (Ht : task_ok t) by (by eapply Forall_lookup_1).
    rewrite !(mark_completed_at fn ts _ p k t Hpos Hk Ht). simpl.
    split_and!; try done. by apply saved_world_files.
  - by rewrite !mark_completed_outside.
Qed.

Lemma delete_task_whatever_printed st st' p :
  store_ok st → output_only st st' →
  fst (delete_task p st') = fst (delete_task p st)
  ∧ self (snd (delete_task p st')) = self (snd (delete_task p st))
  ∧ files (world (snd (delete_task p st')))
    = files (world (snd (delete_task p st))).
Proof.
  destruct st as [[fn ts] w], st' as [s' w']. unfold store_ok. simpl.
  intros Hok (Hs & Hf & _ & Hu & _). simpl in *. subst s'.
  destruct (py_position ts (p - 1)) as [k |] eqn:Hpos.
  - destruct (lookup_lt_is_Some_2 ts k (py_position_Some _ _ _ Hpos)) as [t Hk].
    assert (Ht : task_ok t) by (by eapply Forall_lookup_1).
    rewrite !(delete_task_at fn ts _ p k t Hpos Hk Ht). simpl.
    split_and!; try done. by apply saved_world_files.
  - destruct (index_sized (p - 1)) eqn:Hsz;
      [by rewrite !delete_task_outside | by rewrite !delete_task_overflow].
Qed.

(** [delete_task] returns unless the position is out of range and too
    large for the index type. *)
Lemma delete_task_returns st p :
  store_ok st →
  ¬ ((Z.of_nat (length (tasks (self st))) < p ∨ p ≤ - Z.of_nat (length (tasks (self st))))
     ∧ (p ≤ - 2 ^ 63 ∨ 2 ^ 63 < p)) →
  fst (delete_task p st) = Val tt.
Proof.
  destruct st as [[fn ts] w]. unfold store_ok. simpl. intros Hok Hp.
  destruct (py_position ts (p - 1)) as [k |] eqn:Hpos.
  - destruct (lookup_lt_is_Some_2 ts k (py_position_Some _ _ _ Hpos)) as [t Hk].
    assert (Ht : task_ok t) by (by eapply Forall_lookup_1).
    by rewrite (delete_task_at fn ts _ p k t Hpos Hk Ht).
  - rewrite delete_task_outside; [done | done |].
    apply py_position_None in Hpos. apply index_sized_spec. lia.
Qed.

Lemma menu_turn_run choice_line rest st :
  ascii_only choice_line = true →
  ∃ st', menu_turn (mkConsole (choice_line :: rest) st)
         = dispatch (strip choice_line) (mkConsole rest st')
         ∧ output_only st st'.
Proof.
  intros Hline. unfold menu_turn, cbind at 1.
  destruct (display_menu_run (mkConsole (choice_line :: rest) st))
    as (st1 & -> & Hout1). simpl.
  unfold cbind at 1. rewrite input_run by done.
  eexists. split; [done |].
  etrans; [apply Hout1 |]. destruct st1. apply printed_output_only.
Qed.

Lemma task_number_turn (mark : bool) choice_line num_line rest st :
  store_ok st →
  ascii_only choice_line = true → ascii_only num_line = true →
  strip choice_line = (if mark then "3" else "4") →
  let op := if mark then mark_completed else delete_task in
  let num := strip num_line in
  let len := Z.of_nat (length (tasks (self st))) in
  let r := menu_turn (mkConsole (choice_line :: num_line :: rest) st) in
  (isdigit num = false →
     fst r = CVal true
     ∧ stdin (snd r) = rest
     ∧ self (store (snd r)) = self st
     ∧ files (world (store (snd r))) = files (world st)
     ∧ last (stdout (world (store (snd r)))) = Some invalid_number)
  ∧ (isdigit num = true → (String.length num ≤ max_str_digits)%nat →
     ∃ n, int_literal num = Some n
          ∧ 0 ≤ n
          ∧ stdin (snd r) = rest
          ∧ self (store (snd r)) = self (snd (op n st))
          ∧ files (world (store (snd r))) = files (world (snd (op n st)))
          ∧ (mark = true ∨ n ≤ 2 ^ 63 ∨ n ≤ len → fst r = CVal true)
          ∧ (mark = false → 2 ^ 63 < n → len < n →
             fst r = CRaise (StoreError OverflowError)
             ∧ self (store (snd r)) = self st
             ∧ files (world (store (snd r))) = files (world st)
             ∧ last (stdout (world (store (snd r))))
               = Some "Enter task number to delete: ")).
Proof.
  intros Hok Hchoice Hnum Hstrip op num len r.
  destruct (menu_turn_run choice_line (num_line :: rest) st Hchoice)
    as (st1 & Hturn & Hout1).
  assert (Hok1 : store_ok st1).
  { destruct Hout1 as (Hs & _). unfold store_ok. by rewrite Hs. }
  destruct (call_view (mkConsole (num_line :: rest) st1) true None Hok1)
    as (st2 & Hview & Hout2); [done |].
  simpl in Hview, Hout2.
  assert (Hout : output_only st st2) by (by etrans).
  set (prompt := if mark then "Enter task number to mark as completed: "
                 else "Enter task number to delete: ").
  assert (Hout3 : output_only st (mkSt (self st2) (printed prompt (world st2)))).
  { etrans; [apply Hout |]. destruct st2. apply printed_output_only. }
  assert (Hrun : r = (if isdigit num
                      then cbind (cbind (clift (py_int num)) (λ n, call (op n)))
                             (λ _, cret true)
                      else cbind (call (print invalid_number)) (λ _, cret true))
                       (mkConsole rest (mkSt (self st2) (printed prompt (world st2))))).
  { unfold r. rewrite Hturn, Hstrip. unfold dispatch, op, prompt.
    destruct mark.
    - rewrite !bool_decide_eq_false_2 by done. rewrite bool_decide_eq_true_2 by done.
      unfold cbind at 1. rewrite Hview.
      unfold cbind at 1. rewrite input_run by done. fold num.
      by destruct (isdigit num).
    - rewrite !bool_decide_eq_false_2 by done. rewrite bool_decide_eq_true_2 by done.
      unfold cbind at 1. rewrite Hview.
      unfold cbind at 1. rewrite input_run by done. fold num.
      by destruct (isdigit num). }
  split.
  - intros Hdigit. rewrite Hrun, Hdigit. unfold cbind. rewrite call_print_run.
    simpl. destruct Hout3 as (Hs & Hf & _). simpl in *.
    split_and!; try done. by rewrite last_snoc.
  - intros Hdigit Hlen. rewrite Hrun, Hdigit.
    destruct (isdigit_int_literal num Hdigit) as (n & Hn & Hpos).
    exists n. split; [done |]. split; [done |].
    unfold cbind, clift. unfold num. rewrite py_int_stripped by done.
    fold num. rewrite Hn. unfold call. cbn [store stdin].
    destruct mark; subst op; cbn beta iota.
    + destruct (mark_completed_whatever_printed st _ n Hok Hout3) as (Hv & Hs & Hf).
      destruct (mark_completed n _) as [v st4]. simpl in *. subst v. simpl.
      split_and!; done.
    + destruct (decide (len < n ∧ 2 ^ 63 < n)) as [[Hfar Hbig] | Hnear].
      * assert (Hnone : py_position (tasks (self st)) (n - 1) = None)
          by (apply py_position_outside; fold len; lia).
        assert (Hsz : index_sized (n - 1) = false)
          by (apply index_sized_false; lia).
        rewrite (delete_task_overflow st n Hnone Hsz).
        destruct Hout3 as (Hs & Hf & _). cbn [self world] in Hs, Hf.
        rewrite delete_task_overflow; [| cbn [self]; by rewrite Hs | done].
        simpl. split_and!; try done.
        -- intros [[=] | [? | ?]]; lia.
        -- intros _ _ _. split_and!; try done. by rewrite last_snoc.
      * destruct (delete_task_whatever_printed st _ n Hok Hout3) as (Hv & Hs & Hf).
        assert (Hin : ¬ ((len < n ∨ n ≤ - len) ∧ (n ≤ - 2 ^ 63 ∨ 2 ^ 63 < n))) by lia.
        rewrite (delete_task_returns st n Hok Hin) in Hv.
        destruct (delete_task n _) as [v st4]. simpl in *. subst v. simpl.
        split_and!; try done. intros _ ? ?. lia.
Qed.

(** X20: the menu checks the task number before it uses it.  After
    the choice 3 or 4, text that is not all digits (an empty line, a
    sign, a letter) is answered with ["Invalid task number!"] and
    neither the sequence nor any file changes; text of digits is
    converted without error to a number [n] that is not negative, and
    the store ends as [mark_completed], for 3, or [delete_task], for 4,
    at that number leaves it.  The turn goes on to the next, with one
    exception: after the choice 4, a number above both [2^63] and the
    length makes [list.pop] raise [OverflowError], which nothing
    handles; the turn ends with it right after the prompt, with the
    sequence and the files as they were and the lines that follow
    unread. *)
Theorem task_number_is_checked_then_used :
  ∀ (mark : bool) (choice_line num_line : string) (rest : list string) (st : St),
    store_ok st →
    ascii_only choice_line = true → ascii_only num_line = true →
    strip choice_line = (if mark then "3" else "4") →
    let op := if mark then mark_completed else delete_task in
    let num := strip num_line in
    let len := Z.of_nat (length (tasks (self st))) in
    let r := menu_turn (mkConsole (choice_line :: num_line :: rest) st) in
    (isdigit num = false →
       fst r = CVal true
       ∧ stdin (snd r) = rest
       ∧ self (store (snd r)) = self st
       ∧ files (world (store (snd r))) = files (world st)
       ∧ last (stdout (world (store (snd r)))) = Some invalid_number)
    ∧ (isdigit num = true → (String.length num ≤ max_str_digits)%nat →
       ∃ n, int_literal num = Some n
            ∧ 0 ≤ n
            ∧ stdin (snd r) = rest
            ∧ self (store (snd r)) = self (snd (op n st))
            ∧ files (world (store (snd r))) = files (world (snd (op n st)))
            ∧ (mark = true ∨ n ≤ 2 ^ 63 ∨ n ≤ len → fst r = CVal true)
            ∧ (mark = false → 2 ^ 63 < n → len < n →
               fst r = CRaise (StoreError OverflowError)
               ∧ self (store (snd r)) = self st
               ∧ files (world (store (snd r))) = files (world st)
               ∧ last (stdout (world (store (snd r))))
                 = Some "Enter task number to delete: ")).
Proof.
  intros mark choice_line num_line rest st Hok Hchoice Hnum Hstrip.
  by apply task_number_turn.
Qed.

Lemma task_number_is_checked_then_used_witness :
  self (store (snd (menu_turn
     (mkConsole [" 4 "; "-1"; "5"] (mkSt (mkTodoList "tasks.json" [milk; bread]) quiet_world)))))
  = mkTodoList "tasks.json" [milk; bread]
  ∧ fst (menu_turn
      (mkConsole ["4"; "99999999999999999999"; "5"]
         (mkSt (mkTodoList "tasks.json" [milk; bread]) quiet_world)))
    = CRaise (StoreError OverflowError)
  ∧ fst (menu_turn
      (mkConsole ["3"; "99999999999999999999"; "5"]
         (mkSt (mkTodoList "tasks.json" [milk; bread]) quiet_world)))
    = CVal true.
Proof.
  assert (Hok : store_ok (mkSt (mkTodoList "tasks.json" [milk; bread]) quiet_world)).
  { unfold store_ok. simpl. repeat constructor; unfold task_ok; apply elem_of_123;
      simpl; lia. }
  split_and!.
  - destruct (task_number_is_checked_then_used false " 4 " "-1" ["5"] _ Hok
                eq_refl eq_refl eq_refl) as [Hrefused _].
    destruct (Hrefused eq_refl) as (_ & _ & Hself & _).
    exact Hself.
  - destruct (task_number_is_checked_then_used false "4" "99999999999999999999" ["5"]
                _ Hok eq_refl eq_refl eq_refl) as [_ Hdigits].
    destruct Hdigits as (n & Hn & _ & _ & _ & _ & _ & Hraise);
      [reflexivity | apply Nat.leb_le; reflexivity |].
    assert (n = 99999999999999999999) as -> by (vm_compute in Hn; congruence).
    apply Hraise; [reflexivity | lia | simpl; lia].
  - destruct (task_number_is_checked_then_used true "3" "99999999999999999999" ["5"]
                _ Hok eq_refl eq_refl eq_refl) as [_ Hdigits].
    destruct Hdigits as (n & _ & _ & _ & _ & _ & Hgoes & _);
      [reflexivity | apply Nat.leb_le; reflexivity |].
    apply Hgoes. by left.
Defined.

(** X21: the task number 0 passes the menu's check.  Choosing 4 and
    typing [0] deletes the last task of a store that has one, and
    choosing 3 and typing [0] marks it completed. *)
Theorem menu_zero_reaches_the_last_task :
  ∀ (choice_line : string) (rest : list string) (fn : string) (ts : list Task)
    (t : Task) (w : World),
    Forall task_ok (ts ++ [t]) →
    ascii_only choice_line = true →
    let turn := menu_turn (mkConsole (choice_line :: "0" :: rest)
                             (mkSt (mkTodoList fn (ts ++ [t])) w)) in
    (strip choice_line = "4" →
       fst turn = CVal true ∧ tasks (self (store (snd turn))) = ts)
    ∧ (strip choice_line = "3" →
       fst turn = CVal true
       ∧ tasks (self (store (snd turn))) = (ts ++ [set_completed true t])%list).
Proof.
  intros choice_line rest fn ts t w Hok Hline turn.
  assert (Hk : (ts ++ [t])%list !! length ts = Some t) by (by apply list_lookup_middle).
  assert (Ht : task_ok t) by (by eapply Forall_lookup_1).
  assert (Hpos : py_position (ts ++ [t]) (0 - 1) = Some (length ts)).
  { rewrite py_position_back by (rewrite length_app; simpl; lia).
    f_equal. rewrite length_app. simpl. lia. }
  split; intros Hchoice.
  - destruct (task_number_turn false choice_line "0" rest
                (mkSt (mkTodoList fn (ts ++ [t])) w) Hok Hline eq_refl Hchoice)
      as [_ Hdigits].
    destruct Hdigits as (n & Hn & _ & _ & Hself & _ & Hval & _);
      [done | vm_compute; lia |].
    assert (n = 0) as -> by (vm_compute in Hn; congruence).
    subst turn. cbv beta iota zeta in Hself, Hval.
    split; [apply Hval; right; left; lia |]. rewrite Hself.
    rewrite (delete_task_at fn _ w 0 _ t Hpos Hk Ht). simpl.
    rewrite delete_middle. by rewrite app_nil_r.
  - destruct (task_number_turn true choice_line "0" rest
                (mkSt (mkTodoList fn (ts ++ [t])) w) Hok Hline eq_refl Hchoice)
      as [_ Hdigits].
    destruct Hdigits as (n & Hn & _ & _ & Hself & _ & Hval & _);
      [done | vm_compute; lia |].
    assert (n = 0) as -> by (vm_compute in Hn; congruence).
    subst turn. cbv beta iota zeta in Hself, Hval.
    split; [apply Hval; right; left; lia |]. rewrite Hself.
    rewrite (mark_completed_at fn _ w 0 _ t Hpos Hk Ht). simpl.
    rewrite insert_app_r_alt by lia. by rewrite Nat.sub_diag.
Qed.

Lemma menu_zero_reaches_the_last_task_witness :
  tasks (self (store (snd (menu_turn
     (mkConsole ["4"; "0"] (mkSt (mkTodoList "tasks.json" [milk; bread]) quiet_world))))))
  = [milk].
Proof.
  assert (Hok : Forall task_ok ([milk] ++ [bread])).
  { simpl. repeat constructor; unfold task_ok; apply elem_of_123; simpl; lia. }
  destruct (menu_zero_reaches_the_last_task "4" [] "tasks.json" [milk] bread
              quiet_world Hok eq_refl) as [Hdelete _].
  exact (proj2 (Hdelete eq_refl)).
Defined.

(** X22: choosing 1 adds what was typed.  With the lines of X16 after
    the choice, the turn goes on, the lines are used up, and the
    sequence has one task more at the end: not completed, stamped with
    the current time, with the description and due date typed and the
    priority typed when that is 1, 2 or 3, and 2 for any other text. *)
Theorem menu_adds_what_was_typed :
  ∀ (choice_line : string) (blanks : list string) (d dd pr : string)
    (rest : list string) (st : St),
    ascii_only choice_line = true → strip choice_line = "1" →
    Forall blank_line blanks →
    ascii_only d = true → strip d ≠ EmptyString →
    ascii_only dd = true →
    ascii_only pr = true →
    (String.length (strip pr) ≤ max_str_digits)%nat →
    let turn := menu_turn (mkConsole (choice_line :: blanks ++ d :: dd :: pr :: rest) st) in
    let typed := priority_of_text (strip pr) in
    fst turn = CVal true
    ∧ stdin (snd turn) = rest
    ∧ tasks (self (store (snd turn)))
      = (tasks (self st)
         ++ [mkTask (strip d) (due_date_of_text (strip dd))
               (if bool_decide (typed ∈ [1; 2; 3]) then typed else 2)
               false (now (world st))])%list.
Proof.
  intros choice_line blanks d dd pr rest [[fn ts] w] Hline Hchoice Hblanks Hd Hne Hdd
    Hpr Hlen turn typed.
  destruct (menu_turn_run choice_line (blanks ++ d :: dd :: pr :: rest)
              (mkSt (mkTodoList fn ts) w) Hline) as ([s1 w1] & Hturn & Hout1).
  destruct Hout1 as (Hs & _ & _ & _ & Hnow & _). simpl in Hs, Hnow. subst s1.
  assert (Hrun : ∃ w',
            turn = (CVal true,
                    mkConsole rest
                      (mkSt (mkTodoList fn
                               (ts ++ [Task_call (now w) (strip d)
                                         (mkKwargs (due_date_of_text (strip dd))
                                            (Some typed) None)])) w'))).
  { unfold turn. rewrite Hturn, Hchoice. unfold dispatch.
    rewrite bool_decide_eq_true_2 by done.
    unfold cbind at 1. rewrite get_task_details_run by done.
    unfold cbind at 1, call. simpl. rewrite add_task_run. simpl.
    rewrite Hnow. eexists. reflexivity. }
  destruct Hrun as [w' ->]. simpl.
  split_and!; try done. f_equal. f_equal.
  unfold Task_call, Task_init. simpl. by case_bool_decide.
Qed.

Lemma menu_adds_what_was_typed_witness :
  tasks (self (store (snd (menu_turn
     (mkConsole ["1"; " Buy milk "; EmptyString; "high"; "5"] empty_store)))))
  = [mkTask "Buy milk" None 2 false "2024-01-03 08:00"].
Proof.
  assert (Hne : strip " Buy milk " ≠ EmptyString) by (vm_compute; discriminate).
  assert (Hlen : (String.length (strip "high") ≤ max_str_digits)%nat)
    by (vm_compute; lia).
  destruct (menu_adds_what_was_typed "1" [] " Buy milk " EmptyString "high" ["5"]
              empty_store eq_refl eq_refl (Forall_nil_2 _) eq_refl Hne eq_refl eq_refl
              Hlen) as (_ & _ & Htasks).
  exact Htasks.
Defined.




(** * Properties of the password generator's questions *)

(** X24: [get_password_length] returns the first line typed that is an
    integer from 8 to 64.  Every line before it is answered with the
    complaint that fits, for text that is no number or for a number out
    of range, and the prompt is written again. *)
Theorem get_password_length_reads :
  ∀ (rejected : list string) (good : string) (rest : list string)
    (out : list string) (n : Z),
    Forall rejected_length rejected →
    ascii_only good = true →
    (String.length (strip good) ≤ max_str_digits)%nat →
    int_literal (strip good) = Some n →
    8 ≤ n ≤ 64 →
    get_password_length (mkTerminal (rejected ++ good :: rest) out)
    = (CVal n,
       mkTerminal rest
         (out ++ mjoin ((λ line, [ask_length; length_complaint line]) <$> rejected)
              ++ [ask_length])).
Proof.
  intros rejected good rest out n Hrejected Hgood Hlen Hn Hrange.
  unfold get_password_length. simpl. revert out.
  induction Hrejected as [| line rejected (Hline & Hlen' & Hout) _ IH]; intros out.
  - simpl. rewrite Hgood, py_int_stripped, Hn by done.
    by rewrite bool_decide_eq_true_2.
  - simpl. rewrite Hline, py_int_stripped by done. unfold length_complaint.
    destruct (int_literal (strip line)) as [m |] eqn:Hm.
    + rewrite bool_decide_eq_false_2 by (by apply Hout).
      rewrite IH. by rewrite <- !app_assoc.
    + rewrite IH. by rewrite <- !app_assoc.
Qed.

Lemma get_password_length_reads_witness :
  fst (get_password_length (mkTerminal ["abc"; "7"; " 12 "; "9"] []))
  = CVal 12.
Proof.
  assert (Hrejected : Forall rejected_length ["abc"; "7"]).
  { repeat constructor; try (apply Nat.leb_le; reflexivity);
      intros n Hn; vm_compute in Hn; try discriminate Hn.
    injection Hn as <-. lia. }
  assert (Hlen : (String.length (strip " 12 ") ≤ max_str_digits)%nat)
    by (apply Nat.leb_le; reflexivity).
  assert (Hrange : 8 ≤ 12 ≤ 64) by lia.
  pose proof (get_password_length_reads ["abc"; "7"] " 12 " ["9"] [] 12
                Hrejected eq_refl Hlen eq_refl Hrange) as Hrun.
  cbn [app] in Hrun. by rewrite Hrun.
Defined.

Lemma get_password_length_from_CVal lines out n t' :
  get_password_length_from lines out = (CVal n, t') →
  8 ≤ n ≤ 64
  ∧ keys t' `suffix_of` lines
  ∧ ∃ line, line ∈ lines ∧ int_literal (strip line) = Some n.
Proof.
  revert out. induction lines as [| line lines IH]; intros out; simpl;
    [discriminate |].
  assert (Hlater : ∀ out', get_password_length_from lines out' = (CVal n, t') →
            8 ≤ n ≤ 64
            ∧ keys t' `suffix_of` line :: lines
            ∧ ∃ l, l ∈ line :: lines ∧ int_literal (strip l) = Some n).
  { intros out' Hrun. apply IH in Hrun as (Hn & Hsuffix & l & Hl & Hlit).
    split; [done |]. split; [by apply suffix_cons_r |].
    exists l. split; [rewrite elem_of_cons; by right | done]. }
  destruct (ascii_only line); [| discriminate].
  unfold py_int. rewrite strip_idemp, bool_decide_eq_true_2 by done. simpl.
  destruct (int_literal (strip line)) as [m |] eqn:Hm; [| by apply Hlater].
  case_bool_decide; [| discriminate].
  case_bool_decide; [| by apply Hlater].
  intros [= <- <-]. split; [done |]. split; [by apply suffix_cons_r |].
  exists line. split; [rewrite elem_of_cons; by left | done].
Qed.

(** X25: whenever [get_password_length] returns, the number is from 8
    to 64 and is the value of one of the lines typed, and lines were
    taken from the front only. *)
Theorem get_password_length_is_in_range :
  ∀ (t : Terminal) (n : Z) (t' : Terminal),
    get_password_length t = (CVal n, t') →
    8 ≤ n ≤ 64
    ∧ keys t' `suffix_of` keys t
    ∧ ∃ line, line ∈ keys t ∧ int_literal (strip line) = Some n.
Proof.
  intros t n t' Hrun. unfold get_password_length in Hrun.
  by apply get_password_length_from_CVal in Hrun.
Qed.

Lemma get_password_length_is_in_range_witness :
  8 ≤ 12 ≤ 64.
Proof.
  apply (get_password_length_is_in_range
           (mkTerminal ["abc"; "7"; " 12 "; "9"] []) 12
           (snd (get_password_length (mkTerminal ["abc"; "7"; " 12 "; "9"] [])))).
  reflexivity.
Defined.

Lemma any_enabled_lookup (options : gmap string bool) key :
  options !! key = Some true → any_enabled options = true.
Proof.
  intros Hkey. unfold any_enabled. apply bool_decide_eq_true_2.
  apply Exists_exists. exists (key, true). split; [| done].
  by apply elem_of_map_to_list.
Qed.

Lemma ask_three_lowercase options lines out options' t' :
  options !! "lowercase" = Some true →
  ask_three options lines out = (CVal options', t') →
  options' !! "lowercase" = Some true ∧ keys t' `suffix_of` lines.
Proof.
  intros Hlower. unfold ask_three.
  destruct lines as [| l1 [| l2 [| l3 rest]]]; try discriminate;
    destruct (ascii_only l1); simpl; try discriminate;
    destruct (ascii_only l2); simpl; try discriminate;
    destruct (ascii_only l3); simpl; try discriminate.
  intros [= <- <-]. split.
  - by rewrite !lookup_insert_ne.
  - simpl. by repeat apply suffix_cons_r.
Qed.

Lemma ask_until_enabled_lowercase fuel (options : gmap string bool) t :
  options !! "lowercase" = Some true →
  ask_until_enabled fuel options t = Some (CVal options, t).
Proof.
  intros Hlower. destruct fuel; simpl; by rewrite (any_enabled_lookup _ _ Hlower).
Qed.

(** X26: [get_character_options] asks its three questions once.  With
    three lines typed, it returns the options made of them ([lowercase]
    stays on, [uppercase] and [digits] are on unless the answer is [n]
    or [N], [special] is on only for [y] or [Y]) and never prints the
    complaint that no set is enabled. *)
Theorem get_character_options_asks_once :
  ∀ (l1 l2 l3 : string) (rest out : list string),
    ascii_only l1 = true → ascii_only l2 = true → ascii_only l3 = true →
    get_character_options (mkTerminal (l1 :: l2 :: l3 :: rest) out)
    = Some (CVal (options_of_answers l1 l2 l3),
            mkTerminal rest
              (out ++ [String "010" "Character Set Options:";
                       ask_uppercase; ask_digits; ask_special])).
Proof.
  intros l1 l2 l3 rest out H1 H2 H3.
  unfold get_character_options, ask_three. simpl. rewrite H1, H2, H3. simpl.
  rewrite (any_enabled_lookup _ "lowercase")
    by (by rewrite !lookup_insert_ne).
  unfold options_of_answers. by rewrite <- !app_assoc.
Qed.

Lemma get_character_options_asks_once_witness :
  fst <$> get_character_options (mkTerminal ["N"; "yes"; "Y"] [])
  = Some (CVal (options_of_answers "N" "yes" "Y")).
Proof.
  by rewrite (get_character_options_asks_once "N" "yes" "Y" [] []
                eq_refl eq_refl eq_refl).
Defined.

(** *** The pool *)

Lemma generate_character_pool_cases options :
  ∃ a b c d : bool,
    option_get options "lowercase" true = a
    ∧ option_get options "uppercase" true = b
    ∧ option_get options "digits" true = c
    ∧ option_get options "special" false = d
    ∧ generate_character_pool options
      = ((if a then list_ascii_of_string ascii_lowercase else [])
         ++ (if b then list_ascii_of_string ascii_uppercase else [])
         ++ (if c then list_ascii_of_string digits else [])
         ++ (if d then list_ascii_of_string special_characters else []))%list.
Proof.
  unfold generate_character_pool.
  destruct (option_get options "lowercase" true),
    (option_get options "uppercase" true),
    (option_get options "digits" true),
    (option_get options "special" false);
    by eexists _, _, _, _.
Qed.

(** X27: the pool [generate_character_pool] builds holds no character
    twice; its size is 26 for the lower-case letters, 26 for the
    upper-case letters, 10 for the digits and 14 for the special
    characters, each counted when its option is on, where a missing
    option counts as on, except [special]; so the empty dict gives the
    62 letters and digits. *)
Theorem generate_character_pool_size :
  ∀ options : gmap string bool,
    let on (key : string) (dflt : bool) : nat :=
      if option_get options key dflt then 1%nat else 0%nat in
    NoDup (generate_character_pool options)
    ∧ length (generate_character_pool options)
      = (26 * on "lowercase" true + 26 * on "uppercase" true
         + 10 * on "digits" true + 14 * on "special" false)%nat
    ∧ length (generate_character_pool ∅) = 62%nat.
Proof.
  intros options on.
  destruct (generate_character_pool_cases options)
    as (a & b & c & d & Ha & Hb & Hc & Hd & ->).
  unfold on. rewrite Ha, Hb, Hc, Hd.
  split; [| split; [| reflexivity]].
  - destruct a, b, c, d; apply (bool_decide_unpack _); by vm_compute.
  - by destruct a, b, c, d.
Qed.

Lemma ask_three_screen options lines out r t' :
  ask_three options lines out = (r, t') →
  ∃ more, screen t' = (out ++ more)%list ∧ no_set_enabled ∉ more.
Proof.
  unfold ask_three. intros Hask.
  repeat case_match; simplify_eq; simpl; rewrite <- ?app_assoc;
    (eexists; split; [reflexivity |]);
    apply (bool_decide_unpack _); by vm_compute.
Qed.

(** X28: the options [get_character_options] returns always have
    [lowercase] on, for every input: the loop that asks again is never
    entered, the function ends for every finite input, and the pool
    made of the options holds all 26 lower-case letters, so it is never
    empty. *)
Theorem character_options_always_give_a_pool :
  ∀ t : Terminal,
    ∃ r t',
      get_character_options t = Some (r, t')
      ∧ (no_set_enabled ∉ drop (length (screen t)) (screen t'))
      ∧ (∀ options, r = CVal options →
           options !! "lowercase" = Some true
           ∧ list_ascii_of_string ascii_lowercase
               `prefix_of` generate_character_pool options).
Proof.
  intros [lines out]. unfold get_character_options. simpl.
  destruct (ask_three default_options lines
              (out ++ [String "010" "Character Set Options:"]))
    as [r t'] eqn:Hask.
  assert (Hscreen : no_set_enabled ∉ (drop (length out) (screen t'))).
  { destruct (ask_three_screen _ _ _ _ _ Hask) as (more & -> & Hmore).
    rewrite <- app_assoc, drop_app_length. simpl.
    rewrite not_elem_of_cons. split; [done | done]. }
  destruct r as [options | e |].
  - destruct (ask_three_lowercase default_options lines _ options t' eq_refl Hask)
      as [Hlower _].
    rewrite (any_enabled_lookup _ _ Hlower).
    eexists _, _. split; [done |]. split; [done |].
    intros options' [= <-]. split; [done |].
    destruct (generate_character_pool_cases options)
      as (a & b & c & d & Ha & _ & _ & _ & ->).
    unfold option_get in Ha. rewrite Hlower in Ha. simpl in Ha. subst a.
    by eexists.
  - eexists _, _. split; [done |]. split; [done |]. discriminate.
  - eexists _, _. split; [done |]. split; [done |]. discriminate.
Qed.

Lemma character_options_always_give_a_pool_witness :
  ∃ r t',
    get_character_options (mkTerminal ["n"; "n"; "n"] []) = Some (r, t')
    ∧ ∀ options, r = CVal options → options !! "lowercase" = Some true.
Proof.
  destruct (character_options_always_give_a_pool (mkTerminal ["n"; "n"; "n"] []))
    as (r & t' & Hrun & _ & Hpool).
  exists r, t'. split; [exact Hrun |].
  intros options Hr. exact (proj1 (Hpool options Hr)).
Defined.
